(** * security.txt Checker: probing and linting core

    A shallow embedding of the extension's background worker
    (service_worker.js) and of the popup's manifest parser and lint engine
    (popup.js), with the properties of the specification proved about it.

    Strings.  A JavaScript string is a sequence of UTF-16 code units.  The
    embedding uses [string], reading every [ascii] as one code unit in the
    range 0..255; the built-ins below ([trim], [toLowerCase], the regular
    expressions) are written out for that range. *)

From Stdlib Require Import ZArith NArith Lia Bool Ascii String.
From stdpp Require Import base option list strings pretty gmap.

Local Open Scope string_scope.
Local Open Scope list_scope.
Local Open Scope Z_scope.

(** ** JavaScript built-ins used by the sources *)

Module JS.

Definition code (c : ascii) : N := N_of_ascii c.

(** WhiteSpace and LineTerminator code units (what [String.prototype.trim]
    strips and what the regular expression class \s matches): TAB, LF, VT,
    FF, CR, SP and NBSP. *)
Definition isWhiteSpace (c : ascii) : bool :=
  let n := code c in
  ((9 <=? n) && (n <=? 13) || (n =? 32) || (n =? 160))%N.

(** LineTerminator code units: the characters the regular expression
    atom [.] does not match. *)
Definition isLineTerminator (c : ascii) : bool :=
  let n := code c in ((n =? 10) || (n =? 13))%N.

Fixpoint trimStart (s : string) : string :=
  match s with
  | EmptyString => EmptyString
  | String c s' => if isWhiteSpace c then trimStart s' else s
  end.

Fixpoint trimEnd (s : string) : string :=
  match s with
  | EmptyString => EmptyString
  | String c s' =>
      match trimEnd s' with
      | EmptyString => if isWhiteSpace c then EmptyString else String c EmptyString
      | t => String c t
      end
  end.

(** [s.trim()] *)
Definition trim (s : string) : string := trimEnd (trimStart s).

(** [s.startsWith(p)] *)
Definition startsWith (s p : string) : bool := String.prefix p s.

(** Truthiness of a string: [Boolean(s)], [!s] is its negation. *)
Definition truthy (s : string) : bool :=
  match s with EmptyString => false | _ => true end.

Definition isUpperAZ (c : ascii) : bool := ((65 <=? code c) && (code c <=? 90))%N.
Definition isLowerAZ (c : ascii) : bool := ((97 <=? code c) && (code c <=? 122))%N.
Definition isDigit (c : ascii) : bool := ((48 <=? code c) && (code c <=? 57))%N.

(** [toLowerCase] on one code unit below 256: A-Z and the Latin-1 capitals
    (192..222 without the multiplication sign 215) move up by 32. *)
Definition lowerChar (c : ascii) : ascii :=
  let n := code c in
  if (isUpperAZ c || ((192 <=? n) && (n <=? 222) && negb (n =? 215)))%N
  then ascii_of_N (n + 32) else c.

Fixpoint toLowerCase (s : string) : string :=
  match s with
  | EmptyString => EmptyString
  | String c s' => String (lowerChar c) (toLowerCase s')
  end.

(** Canonicalisation of the [i] flag without the [u] flag: a pattern
    character and an input character match when their upper-case forms
    agree, and a character above 127 never folds onto an ASCII one; below
    256 only the ASCII letters fold onto each other. *)
Definition foldChar (c : ascii) : ascii :=
  if isLowerAZ c then ascii_of_N (code c - 32) else c.

Definition eqCharI (a b : ascii) : bool :=
  bool_decide (foldChar a = foldChar b).

(** [pat] (a literal) matches a prefix of [s], ignoring ASCII case. *)
Fixpoint prefixI (pat s : string) : bool :=
  match pat, s with
  | EmptyString, _ => true
  | String a p', String b s' => eqCharI a b && prefixI p' s'
  | String _ _, EmptyString => false
  end.

(** [pat] (a literal) matches the whole of [s], ignoring ASCII case. *)
Fixpoint equalI (pat s : string) : bool :=
  match pat, s with
  | EmptyString, EmptyString => true
  | String a p', String b s' => eqCharI a b && equalI p' s'
  | _, _ => false
  end.

(** [s.split(sep)] for a one-character separator. *)
Fixpoint splitGo (sep : ascii) (cur : string) (s : string) : list string :=
  match s with
  | EmptyString => [String.rev cur]
  | String c s' =>
      if bool_decide (c = sep) then String.rev cur :: splitGo sep EmptyString s'
      else splitGo sep (String c cur) s'
  end.

Definition split (sep : ascii) (s : string) : list string :=
  splitGo sep EmptyString s.

(** [s.split(/\r?\n/)]: a line ends at LF or at CR LF. *)
Fixpoint splitLinesGo (cur : string) (s : string) : list string :=
  match s with
  | EmptyString => [String.rev cur]
  | String c s' =>
      if (code c =? 10)%N then String.rev cur :: splitLinesGo EmptyString s'
      else
        match s' with
        | String d s'' =>
            if ((code c =? 13) && (code d =? 10))%N
            then String.rev cur :: splitLinesGo EmptyString s''
            else splitLinesGo (String c cur) s'
        | EmptyString => splitLinesGo (String c cur) s'
        end
  end.

Definition splitLines (s : string) : list string := splitLinesGo EmptyString s.

(** [a.join(sep)] *)
Fixpoint join (sep : string) (l : list string) : string :=
  match l with
  | [] => EmptyString
  | [x] => x
  | x :: rest => x +:+ sep +:+ join sep rest
  end.

(** [a.slice(-n)] *)
Definition sliceLast {A} (n : nat) (l : list A) : list A :=
  drop (length l - n)%nat l.

(** [[...new Set(l)]]: first occurrences, in order. *)
Fixpoint uniq (l : list string) : list string :=
  match l with
  | [] => []
  | x :: rest => x :: filter (fun y => y ≠ x) (uniq rest)
  end.

(** [s.slice(0, s.length - n)] *)
Definition dropLast (n : nat) (s : string) : string :=
  String.substring 0 (String.length s - n) s.

(** [s.slice(-n)] for [n] at most the length. *)
Definition takeLast (n : nat) (s : string) : string :=
  String.substring (String.length s - n) n s.

End JS.

(** ** service_worker.js: endpoint resolver *)

Definition DEFAULT_ENDPOINTS : list string :=
  ["/.well-known/security.txt"; "/security.txt"].

Definition TAB_CACHE_KEY_PREFIX : string := "tabResult:".

(** [normalizePath(p)] for a string [p]. *)
Definition normalizePath (p : string) : string :=
  let x := JS.trim p in
  if negb (JS.truthy x) then EmptyString
  else if negb (JS.startsWith x "/") then "/" +:+ x
  else x.

(** The heuristic table of two-label public suffixes. *)
Definition MULTIPART_SUFFIXES : gset string :=
  list_to_set
    ["co.uk"; "org.uk"; "ac.uk"; "gov.uk";
     "com.au"; "net.au"; "org.au";
     "co.nz"; "org.nz";
     "co.jp"; "ne.jp"; "or.jp";
     "com.br"; "com.mx";
     "co.za";
     "com.sg";
     "co.in"; "net.in"; "org.in";
     "com.tr";
     "com.ar"].

(** [guessRegistrableDomain(hostname)] *)
Definition guessRegistrableDomain (hostname : string) : string :=
  let parts := List.filter JS.truthy (JS.split "." hostname) in
  if (length parts <=? 2)%nat then hostname
  else
    let last2 := JS.join "." (JS.sliceLast 2 parts) in
    if bool_decide (last2 ∈ MULTIPART_SUFFIXES) && (3 <=? length parts)%nat
    then JS.join "." (JS.sliceLast 3 parts)
    else JS.join "." (JS.sliceLast 2 parts).

(** [s.replace(/security\.txt$/i, repl)]: the last twelve characters are
    replaced when they spell the file name in any letter case, otherwise
    the string is returned as it is. *)
Definition replaceFileName (s repl : string) : string :=
  if JS.equalI "security.txt" (JS.takeLast 12 s)
  then JS.dropLast 12 s +:+ repl
  else s.

(** [expandCaseVariantsForEndpoint(ep)]; the test is the regular expression
    [/(\/)(security\.txt)$/i]. *)
Definition expandCaseVariantsForEndpoint (ep : string) : list string :=
  if negb (JS.equalI "/security.txt" (JS.takeLast 13 ep)) then [ep]
  else
    let base := replaceFileName ep "security.txt" in
    let variants :=
      [base;
       replaceFileName base "Security.txt";
       replaceFileName base "security.TXT";
       replaceFileName base "SECURITY.TXT"] in
    JS.uniq variants.

(** [buildCandidateUrlsForHost(host, endpoints, tryHttpFallback)] *)
Definition buildCandidateUrlsForHost
    (host : string) (endpoints : list string) (tryHttpFallback : bool)
    : list string :=
  let expandedEndpoints :=
    List.filter JS.truthy
      (map normalizePath (flat_map expandCaseVariantsForEndpoint endpoints)) in
  let https := map (fun ep => "https://" +:+ host +:+ ep) expandedEndpoints in
  if negb tryHttpFallback then https
  else
    let http := map (fun ep => "http://" +:+ host +:+ ep) expandedEndpoints in
    https ++ http.

(** ** The host platform

    The worker runs against interfaces it does not define: the URL parser,
    the network behind [fetch], the extension storage areas and the badge.
    They are parameters of the embedding. *)

(** The two components of a parsed URL that the sources read. *)
Record URLRecord := mkURL { protocol : string; hostname : string }.

(** What [fetch] answers with.  [res.ok] is not stored: it is the status
    being in 200..299.  [res_body] is what [res.text()] settles with, the
    text or the message of the error it rejects with. *)
Record Response := mkResponse {
  res_status : Z;
  res_statusText : string;
  res_contentTypeHeader : option string;
  res_body : string + string
}.

Inductive FetchOutcome :=
| FetchRejects (message : string)
| FetchResolves (res : Response).

Definition res_ok (r : Response) : bool :=
  (200 <=? res_status r) && (res_status r <=? 299).

Class Platform := {
  (** [new URL(s)]: [None] when the constructor throws. *)
  URL_new : string -> option URLRecord;
  (** [new Date(s).getTime()]: [None] for NaN, else milliseconds. *)
  Date_getTime : string -> option Z;
  (** [d.toISOString()] of a valid date, from its milliseconds. *)
  Date_toISOString : Z -> string;
  (** The outside world: it answers requests and time passes in it.  A
      request to a URL is answered and changes the world. *)
  Net : Type;
  fetch_net : string -> Net -> FetchOutcome * Net;
  (** The time in milliseconds that [Date.now()] reads. *)
  now_net : Net -> Z
}.

(** ** Records of the worker *)

Inductive HostMode := ModeHost | ModeApex.

(** One element of [attempts]. *)
Record Attempt := mkAttempt {
  att_url : string;
  att_ok : bool;
  att_status : option Z;
  att_statusText : option string;
  att_contentType : option string;
  att_error : option string
}.

(** The [meta] object of [fetchWithMeta]. *)
Record Meta := mkMeta {
  meta_url : string;
  meta_ok : bool;
  meta_status : option Z;
  meta_statusText : option string;
  meta_contentType : option string;
  meta_error : option string;
  meta_text : option string
}.

(** What [probeSecurityTxt] returns. *)
Record ProbeResult := mkProbeResult {
  found : bool;
  foundUrl : option string;
  status : option Z;
  contentType : option string;
  text : option string;
  attempts : list Attempt;
  checkedHost : string;
  checkedHostMode : HostMode
}.

(** What [checkTab] stores for a tab; a property the object literal does
    not have is [None]. *)
Record Payload := mkPayload {
  pl_tabUrl : option string;
  pl_checkedAt : Z;
  pl_found : bool;
  pl_foundUrl : option string;
  pl_status : option Z;
  pl_contentType : option string;
  pl_text : option string;
  pl_attempts : list Attempt;
  pl_error : option string;
  pl_checkedHost : option string;
  pl_checkedHostMode : option HostMode
}.

Inductive BadgeState := Checking | BadgeOk | BadgeWarn | BadgeNo.

(** The state the worker reads and writes: the outside world and the log of
    the URLs requested from it, the two settings in [chrome.storage.sync]
    ([None]: no array is stored; the elements of a stored array are taken
    to be strings), the session storage area, and the badge text and colour
    of every tab. *)
Record World `{Platform} := mkWorld {
  net : Net;
  requests : list string;
  sync_extraEndpoints : option (list string);
  sync_tryHttpFallback : bool;
  session : gmap string Payload;
  badgeText : gmap Z string;
  badgeColor : gmap Z string
}.

(** ** The worker's operations, in a state and exception monad

    An [async] function is a computation over the [World]; [None] is a
    rejected promise (an exception that nothing caught). *)

Section Worker.
Context `{P : Platform}.

Definition M (A : Type) : Type := World -> option (A * World).

Definition ret {A} (a : A) : M A := fun w => Some (a, w).

Definition bind {A B} (m : M A) (k : A -> M B) : M B :=
  fun w => match m w with
           | Some (a, w') => k a w'
           | None => None
           end.

Definition throw {A} : M A := fun _ => None.

Definition get : M World := fun w => Some (w, w).

Definition modify (f : World -> World) : M unit := fun w => Some (tt, f w).

Notation "x <- m ;; k" := (bind m (fun x => k))
  (at level 100, m at next level, right associativity).
Notation "m ;;; k" := (bind m (fun _ => k))
  (at level 100, right associativity).

(** [await fetch(url, ...)]: the request is logged and the network answers. *)
Definition fetch (url : string) : M FetchOutcome :=
  fun w =>
    let '(o, n) := fetch_net url (net w) in
    Some (o, mkWorld _ n (requests w ++ [url])
                (sync_extraEndpoints w) (sync_tryHttpFallback w)
                (session w) (badgeText w) (badgeColor w)).

(** The time in the world [w]. *)
Definition clock (w : World) : Z := now_net (net w).

(** [Date.now()] *)
Definition Date_now : M Z := w <- get ;; ret (clock w).

(** [new URL(s)] in a place where nothing catches what it throws. *)
Definition newURL (s : string) : M URLRecord :=
  match URL_new s with
  | Some u => ret u
  | None => throw
  end.

Record Settings := mkSettings {
  extraEndpoints : list string;
  tryHttpFallback : bool
}.

(** What [getSettings()] computes from the stored values. *)
Definition settingsOf (w : World) : Settings :=
  let extra := match sync_extraEndpoints w with Some l => l | None => [] end in
  {| extraEndpoints := List.filter JS.truthy (map normalizePath extra);
     tryHttpFallback := sync_tryHttpFallback w |}.

(** [getSettings()] *)
Definition getSettings : M Settings := w <- get ;; ret (settingsOf w).

(** [isHttpUrl(url)] *)
Definition isHttpUrl (url : string) : bool :=
  match URL_new url with
  | Some u => bool_decide (protocol u = "http:") || bool_decide (protocol u = "https:")
  | None => false
  end.

(** [ct || null] *)
Definition orNull (s : option string) : option string :=
  match s with
  | Some x => if JS.truthy x then Some x else None
  | None => None
  end.

(** [fetchWithMeta(url)].  When [res.text()] rejects, [meta.ok] has already
    been set and the handler only fills [meta.error]. *)
Definition fetchWithMeta (url : string) : M Meta :=
  o <- fetch url ;;
  match o with
  | FetchRejects msg =>
      ret (mkMeta url false None None None (Some msg) None)
  | FetchResolves res =>
      let st := Some (res_status res) in
      let stt := Some (res_statusText res) in
      let ct := orNull (res_contentTypeHeader res) in
      if res_ok res then
        match res_body res with
        | inl t => ret (mkMeta url true st stt ct None (Some t))
        | inr msg => ret (mkMeta url true st stt ct (Some msg) None)
        end
      else ret (mkMeta url false st stt ct None None)
  end.

(** Does the text, from position 0 on, continue with [contact\s*:]? *)
Fixpoint skipSpaceThenColon (s : string) : bool :=
  match s with
  | EmptyString => false
  | String c s' =>
      if bool_decide (c = ":"%char) then true
      else if JS.isWhiteSpace c then skipSpaceThenColon s'
      else false
  end.

Definition contactHere (s : string) : bool :=
  JS.prefixI "contact" s && skipSpaceThenColon (String.substring 7 (String.length s - 7) s).

(** [/^contact\s*:/im.test(text)]: with the [m] flag the anchor holds at
    position 0 and after every line terminator. *)
Fixpoint hasContactLine (atLineStart : bool) (s : string) : bool :=
  (atLineStart && contactHere s) ||
  match s with
  | EmptyString => false
  | String c s' => hasContactLine (JS.isLineTerminator c) s'
  end.

(** [quickLintState(text)] *)
Definition quickLintState (t : option string) : BadgeState :=
  match t with
  | None => BadgeWarn
  | Some s =>
      if negb (JS.truthy s) then BadgeWarn
      else if hasContactLine true s then BadgeOk else BadgeWarn
  end.

Definition setBadgeText (tabId : Z) (t : string) : M unit :=
  modify (fun w => mkWorld _ (net w) (requests w)
                     (sync_extraEndpoints w) (sync_tryHttpFallback w)
                     (session w) (<[tabId := t]> (badgeText w)) (badgeColor w)).

Definition setBadgeBackgroundColor (tabId : Z) (color : string) : M unit :=
  modify (fun w => mkWorld _ (net w) (requests w)
                     (sync_extraEndpoints w) (sync_tryHttpFallback w)
                     (session w) (badgeText w) (<[tabId := color]> (badgeColor w))).

(** [setBadge(tabId, state)] *)
Definition setBadge (tabId : Z) (state : BadgeState) : M unit :=
  match state with
  | BadgeOk => setBadgeText tabId "OK" ;;; setBadgeBackgroundColor tabId "#2e7d32"
  | BadgeWarn => setBadgeText tabId "!" ;;; setBadgeBackgroundColor tabId "#f9a825"
  | BadgeNo => setBadgeText tabId "NO" ;;; setBadgeBackgroundColor tabId "#b71c1c"
  | Checking => setBadgeText tabId "?" ;;; setBadgeBackgroundColor tabId "#616161"
  end.

Definition cacheKey (tabId : Z) : string := TAB_CACHE_KEY_PREFIX +:+ pretty tabId.

(** [cacheTabResult(tabId, payload)] *)
Definition cacheTabResult (tabId : Z) (payload : Payload) : M unit :=
  modify (fun w => mkWorld _ (net w) (requests w)
                     (sync_extraEndpoints w) (sync_tryHttpFallback w)
                     (<[cacheKey tabId := payload]> (session w))
                     (badgeText w) (badgeColor w)).

(** [getCachedTabResult(tabId)] *)
Definition getCachedTabResult (tabId : Z) : M (option Payload) :=
  w <- get ;; ret (session w !! cacheKey tabId).

Definition attemptOf (m : Meta) : Attempt :=
  mkAttempt (meta_url m) (meta_ok m) (meta_status m) (meta_statusText m)
            (meta_contentType m) (meta_error m).

(** The inner loop of [probeSecurityTxt] over the candidates of the host
    [h]: [inl] is the [return] from inside the loop, [inr] the [attempts]
    array when the loop runs to its end. *)
Fixpoint tryCandidates (host h : string) (candidates : list string)
    (atts : list Attempt) : M (ProbeResult + list Attempt) :=
  match candidates with
  | [] => ret (inr atts)
  | url :: rest =>
      meta <- fetchWithMeta url ;;
      let atts' := atts ++ [attemptOf meta] in
      if meta_ok meta then
        ret (inl (mkProbeResult true (Some (meta_url meta)) (meta_status meta)
                    (meta_contentType meta) (meta_text meta) atts' h
                    (if bool_decide (h = host) then ModeHost else ModeApex)))
      else tryCandidates host h rest atts'
  end.

(** The outer loop over [hostsToTry]. *)
Fixpoint tryHosts (host : string) (endpoints : list string) (tryHttp : bool)
    (hosts : list string) (atts : list Attempt)
    : M (ProbeResult + list Attempt) :=
  match hosts with
  | [] => ret (inr atts)
  | h :: rest =>
      let candidates := buildCandidateUrlsForHost h endpoints tryHttp in
      r <- tryCandidates host h candidates atts ;;
      match r with
      | inl res => ret (inl res)
      | inr atts' => tryHosts host endpoints tryHttp rest atts'
      end
  end.

(** [host === apex ? [host] : [host, apex]] *)
Definition hostsToTry (host : string) : list string :=
  let apex := guessRegistrableDomain host in
  if bool_decide (host = apex) then [host] else [host; apex].

(** The [endpoints] array of [probeSecurityTxt]. *)
Definition endpointsOf (s : Settings) : list string :=
  List.filter JS.truthy (map normalizePath (DEFAULT_ENDPOINTS ++ extraEndpoints s)).

(** [probeSecurityTxt(tabUrl)] *)
Definition probeSecurityTxt (tabUrl : string) : M ProbeResult :=
  settings <- getSettings ;;
  let endpoints := endpointsOf settings in
  u <- newURL tabUrl ;;
  let host := hostname u in
  r <- tryHosts host endpoints (tryHttpFallback settings) (hostsToTry host) [] ;;
  match r with
  | inl res => ret res
  | inr atts => ret (mkProbeResult false None None None None atts host ModeHost)
  end.

(** [!tabUrl]: the URL is [undefined] or the empty string. *)
Definition falsyUrl (tabUrl : option string) : bool :=
  match tabUrl with
  | None => true
  | Some s => negb (JS.truthy s)
  end.

(** [checkTab(tabId, tabUrl)].  [tabUrl] may be [undefined]; the test
    [!tabUrl] then decides before [isHttpUrl] is called. *)
Definition checkTab (tabId : Z) (tabUrl : option string) : M unit :=
  let url := default EmptyString tabUrl in
  if falsyUrl tabUrl || negb (isHttpUrl url) then
    setBadge tabId Checking ;;;
    now <- Date_now ;;
    cacheTabResult tabId
      (mkPayload (orNull tabUrl) now false None None None None []
         (Some "Not an http(s) URL") None None) ;;;
    setBadge tabId BadgeNo
  else
    setBadge tabId Checking ;;;
    result <- probeSecurityTxt url ;;
    now <- Date_now ;;
    let payload :=
      mkPayload (Some url) now (found result) (foundUrl result)
        (status result) (contentType result) (text result)
        (attempts result) None (Some (checkedHost result))
        (Some (checkedHostMode result)) in
    cacheTabResult tabId payload ;;;
    if negb (found result) then setBadge tabId BadgeNo
    else
      setBadge tabId
        (match quickLintState (text result) with
         | BadgeOk => BadgeOk
         | _ => BadgeWarn
         end).

End Worker.

(** ** popup.js: manifest parser *)

(** A field of the manifest: the name as first written and the values in
    source order. *)
Record FieldEntry := mkField { name : string; values : list string }.

(** What reading a property of the [fields] object gives.  [fields] starts
    as the object literal [{}], so a name it has no own property for is
    looked up on [Object.prototype]. *)
Inductive PropValue :=
| Own (e : FieldEntry)
| Inherited
| Undefined.

Definition OBJECT_PROTOTYPE_KEYS : list string :=
  ["constructor"; "hasOwnProperty"; "isPrototypeOf"; "propertyIsEnumerable";
   "toLocaleString"; "toString"; "valueOf"; "__proto__";
   "__defineGetter__"; "__defineSetter__"; "__lookupGetter__";
   "__lookupSetter__"].

(** [fields[key]] *)
Definition getProp (fields : gmap string FieldEntry) (key : string) : PropValue :=
  match fields !! key with
  | Some e => Own e
  | None => if bool_decide (key ∈ OBJECT_PROTOTYPE_KEYS) then Inherited else Undefined
  end.

(** [!fields[key]]: objects and functions are truthy. *)
Definition falsyProp (v : PropValue) : bool :=
  match v with Undefined => true | _ => false end.

(** [if (!fields[key]) fields[key] = { name, values: [] };
     fields[key].values.push(value);]
    An inherited property is a function or an object without a [values]
    array, and the call of its missing [push] throws a TypeError. *)
Definition pushValue (key nm value : string) (fields : gmap string FieldEntry)
    : option (gmap string FieldEntry) :=
  let fields1 :=
    if falsyProp (getProp fields key) then <[key := mkField nm []]> fields
    else fields in
  match getProp fields1 key with
  | Own e => Some (<[key := mkField (name e) (values e ++ [value])]> fields1)
  | _ => None
  end.

Definition isNameChar (c : ascii) : bool :=
  JS.isUpperAZ c || JS.isLowerAZ c || JS.isDigit c || bool_decide (c = "-"%char).

(** The longest prefix of name characters, and what follows it. *)
Fixpoint spanName (s : string) : string * string :=
  match s with
  | EmptyString => (EmptyString, EmptyString)
  | String c s' =>
      if isNameChar c then let '(n, r) := spanName s' in (String c n, r)
      else (EmptyString, s)
  end.

Fixpoint hasLineTerminator (s : string) : bool :=
  match s with
  | EmptyString => false
  | String c s' => JS.isLineTerminator c || hasLineTerminator s'
  end.

(** [exec] of the field pattern on [line], giving its two groups: one or
    more characters of [A-Za-z0-9-] (group 1), optional space, a colon,
    optional space, then any characters up to the end (group 2).
    Every quantifier is greedy and none can give a character back with
    success: the name is the longest run of name characters, the spaces are
    skipped to the colon and after it, and the rest is the value if the
    atom [.] matches all of it. *)
Definition matchField (line : string) : option (string * string) :=
  let '(nm, rest) := spanName line in
  if negb (JS.truthy nm) then None
  else
    match JS.trimStart rest with
    | String ":" rest' =>
        let value := JS.trimStart rest' in
        if hasLineTerminator value then None else Some (nm, value)
    | _ => None
    end.

(** The body of the loop of [parseSecurityTxt] for one raw line. *)
Definition parseLine (fields : gmap string FieldEntry) (line0 : string)
    : option (gmap string FieldEntry) :=
  let line := JS.trim line0 in
  if negb (JS.truthy line) then Some fields
  else if JS.startsWith line "#" then Some fields
  else
    match matchField line with
    | None => pushValue "__unparsed" "__unparsed" line0 fields
    | Some (nm, value) => pushValue (JS.toLowerCase nm) nm value fields
    end.

Fixpoint parseLines (lines : list string) (fields : gmap string FieldEntry)
    : option (gmap string FieldEntry) :=
  match lines with
  | [] => Some fields
  | line0 :: rest =>
      match parseLine fields line0 with
      | Some fields' => parseLines rest fields'
      | None => None
      end
  end.

(** [parseSecurityTxt(text)]; [None] when it throws. *)
Definition parseSecurityTxt (text : string) : option (gmap string FieldEntry) :=
  parseLines (JS.splitLines text) ∅.

(** What the loop does with a raw line, in the words of the manifest
    format: blank lines and comments are ignored, a line of the form
    [Name: value] is a field, any other line is unparsed. *)
Inductive LineKind :=
| Ignored
| UnparsedLine
| FieldLine (nm value : string).

Definition classify (line0 : string) : LineKind :=
  let line := JS.trim line0 in
  if negb (JS.truthy line) then Ignored
  else if JS.startsWith line "#" then Ignored
  else
    match matchField line with
    | None => UnparsedLine
    | Some (nm, value) => FieldLine nm value
    end.

Definition isUnparsed (line0 : string) : bool :=
  match classify line0 with UnparsedLine => true | _ => false end.

(** The raw lines of the text that are unparsed, in order. *)
Definition unparsedLines (text : string) : list string :=
  List.filter isUnparsed (JS.splitLines text).

(** The reserved entry after one more unparsed line. *)
Definition bucketPush (b : option FieldEntry) (line0 : string) : option FieldEntry :=
  match b with
  | Some e => Some (mkField (name e) (values e ++ [line0]))
  | None => Some (mkField "__unparsed" [line0])
  end.

(** A field name of the grammar: one or more of [A-Za-z0-9-]. *)
Fixpoint isFieldName (s : string) : bool :=
  match s with
  | EmptyString => false
  | String c EmptyString => isNameChar c
  | String c s' => isNameChar c && isFieldName s'
  end.

(** ** popup.js: lint engine *)

Inductive Level := LevelWarn | LevelFail.
Inductive Verdict := VerdictOk | VerdictWarn | VerdictFail.

Record Issue := mkIssue { level : Level; msg : string }.
Record Report := mkReport { verdict : Verdict; score : Z; issues : list Issue }.

Global Instance Level_eq_dec : EqDecision Level.
Proof. solve_decision. Defined.

Section Lint.
Context `{P : Platform}.

(** [looksLikeUrlOrMailto(v)] *)
Definition looksLikeUrlOrMailto (v : string) : bool :=
  let s := JS.trim v in
  if negb (JS.truthy s) then false
  else if JS.prefixI "mailto:" s then true
  else
    match URL_new s with
    | Some u => bool_decide (protocol u = "https:") || bool_decide (protocol u = "http:")
    | None => false
    end.

(** [parseRfc3339Date(s)], as the milliseconds of the date. *)
Definition parseRfc3339Date (s : string) : option Z :=
  let v := JS.trim s in
  if negb (JS.truthy v) then None
  else Date_getTime v.

(** [fields[key]?.values || []] *)
Definition valuesOf (fields : gmap string FieldEntry) (key : string) : list string :=
  match fields !! key with
  | Some e => values e
  | None => []
  end.

Definition isAlpha (c : ascii) : bool := JS.isUpperAZ c || JS.isLowerAZ c.
Definition isAlnum (c : ascii) : bool := isAlpha c || JS.isDigit c.

Fixpoint allChars (p : ascii -> bool) (s : string) : bool :=
  match s with
  | EmptyString => true
  | String c s' => p c && allChars p s'
  end.

Definition subtag (p : ascii -> bool) (s : string) : bool :=
  (1 <=? String.length s)%nat && (String.length s <=? 8)%nat && allChars p s.

(** [/^[A-Za-z]{1,8}(-[A-Za-z0-9]{1,8})*$/.test(tag)]: the hyphens cut the
    tag into a first group of letters and further alphanumeric groups. *)
Definition langTagOk (tag : string) : bool :=
  match JS.split "-" tag with
  | first :: rest => subtag isAlpha first && forallb (subtag isAlnum) rest
  | [] => false
  end.

Definition count (n : nat) : string := pretty n.

(** [lint(fields)], with [now] the value [Date.now()] returns.  Each rule
    pushes onto [issues] and lowers [score]; the pair of the two is handed
    from rule to rule.  The quotation marks in the last message lie outside
    the range 0..255 and stand in the literal as their UTF-8 bytes. *)
Definition lint (now : Z) (fields : gmap string FieldEntry) : Report :=
  let score := 100 in
  let issues : list Issue := [] in
  let contacts := valuesOf fields "contact" in
  let expires := valuesOf fields "expires" in
  let policy := valuesOf fields "policy" in
  let prefLang := valuesOf fields "preferred-languages" in
  let encryption := valuesOf fields "encryption" in
  let acknowledgments := valuesOf fields "acknowledgments" in
  let hiring := valuesOf fields "hiring" in
  let '(issues, score) :=
    if (length contacts =? 0)%nat then
      (issues ++ [mkIssue LevelFail
         "Missing Contact: field (provide at least one security contact)."],
       score - 60)
    else
      let bad := List.filter (fun c => negb (looksLikeUrlOrMailto c)) contacts in
      if (0 <? length bad)%nat then
        (issues ++ [mkIssue LevelWarn
           ("Contact: has " +:+ count (length bad) +:+
            " value(s) that do not look like a URL or mailto.")],
         score - 15)
      else (issues, score) in
  let '(issues, score) :=
    match expires with
    | [] =>
        (issues ++ [mkIssue LevelWarn "Missing Expires: field (recommended)."],
         score - 10)
    | e0 :: _ =>
        match parseRfc3339Date e0 with
        | None =>
            (issues ++ [mkIssue LevelWarn
               "Expires: present but not parseable as a date/time."],
             score - 10)
        | Some d =>
            if d <? now then
              (issues ++ [mkIssue LevelFail
                 ("Expires: is in the past (" +:+ Date_toISOString d +:+ ").")],
               score - 35)
            else (issues, score)
        end
    end in
  let '(issues, score) :=
    if (length policy =? 0)%nat then
      (issues ++ [mkIssue LevelWarn
         "Missing Policy: field (recommended; points to disclosure policy)."],
       score - 5)
    else
      let bad := List.filter (fun p => negb (looksLikeUrlOrMailto p)) policy in
      if (0 <? length bad)%nat then
        (issues ++ [mkIssue LevelWarn "Policy: value(s) should usually be a URL."],
         score - 5)
      else (issues, score) in
  let '(issues, score) :=
    if (0 <? length prefLang)%nat then
      let bad :=
        List.filter (fun tag => negb (langTagOk tag))
          (List.filter JS.truthy
             (map JS.trim (flat_map (JS.split ",") prefLang))) in
      if (0 <? length bad)%nat then
        (issues ++ [mkIssue LevelWarn
           ("Preferred-Languages: contains suspicious tag(s): " +:+
            JS.join ", " bad)],
         score - 3)
      else (issues, score)
    else (issues, score) in
  let bonusCount :=
    length (List.filter (fun a : list string => (0 <? length a)%nat)
              [encryption; acknowledgments; hiring]) in
  let score := score + Z.min 6 (Z.of_nat bonusCount * 2) in
  let unparsed := valuesOf fields "__unparsed" in
  let '(issues, score) :=
    if (0 <? length unparsed)%nat then
      (issues ++ [mkIssue LevelWarn
         ("Found " +:+ count (length unparsed) +:+
          " non “Field: value” line(s).")],
       score - 5)
    else (issues, score) in
  let score := Z.max 0 (Z.min 100 score) in
  let verdict :=
    if existsb (fun i => bool_decide (level i = LevelFail)) issues then VerdictFail
    else if existsb (fun i => bool_decide (level i = LevelWarn)) issues then VerdictWarn
    else VerdictOk in
  mkReport verdict score issues.

End Lint.

(** ** A reference platform for the scenarios

    The scenarios of the specification are run on a concrete platform.  It
    covers a fragment of what a browser accepts, on which it is meant to
    agree with the browser:
    - URLs: a string that does not start with a scheme and a colon is not
      a URL; [http(s)://host], with a port, path, query or fragment after
      a host of ASCII letters, digits, hyphens and dots that is not an IP
      address, has that host in lower case as its host name; for a scheme
      other than http, https, ws, wss, ftp and file the host after [//]
      is kept as written, and without [//] the host name is empty;
    - dates: the date-time format [YYYY-MM-DDTHH:mm:ssZ] of ECMAScript with
      every element in range; any other string is not a date here;
    - network: a table from URLs to answers, the same at every request;
      the world is its clock, and every request takes 40 ms. *)

Module Reference.

Definition isSchemeChar (c : ascii) : bool :=
  JS.isUpperAZ c || JS.isLowerAZ c || JS.isDigit c ||
  bool_decide (c = "+"%char) || bool_decide (c = "-"%char) || bool_decide (c = "."%char).

(** Characters up to the first one satisfying [stop], and the rest. *)
Fixpoint breakAt (stop : ascii -> bool) (s : string) : string * string :=
  match s with
  | EmptyString => (EmptyString, EmptyString)
  | String c s' =>
      if stop c then (EmptyString, s)
      else let '(a, b) := breakAt stop s' in (String c a, b)
  end.

Definition endsHost (c : ascii) : bool :=
  bool_decide (c = "/"%char) || bool_decide (c = "?"%char) ||
  bool_decide (c = "#"%char) || bool_decide (c = ":"%char).

(** Leading and trailing C0 controls and spaces are stripped, and tabs
    and newlines are removed, before the URL is parsed. *)
Definition isC0OrSpace (c : ascii) : bool := (JS.code c <=? 32)%N.

Fixpoint stripStart (s : string) : string :=
  match s with
  | EmptyString => EmptyString
  | String c s' => if isC0OrSpace c then stripStart s' else s
  end.

Fixpoint removeTabNewline (s : string) : string :=
  match s with
  | EmptyString => EmptyString
  | String c s' =>
      if ((JS.code c =? 9) || (JS.code c =? 10) || (JS.code c =? 13))%N
      then removeTabNewline s'
      else String c (removeTabNewline s')
  end.

Definition parseURL (input : string) : option URLRecord :=
  let s :=
    removeTabNewline
      (String.rev (stripStart (String.rev (stripStart input)))) in
  match s with
  | EmptyString => None
  | String c0 _ =>
      if negb (JS.isUpperAZ c0 || JS.isLowerAZ c0) then None
      else
        match breakAt (fun c => negb (isSchemeChar c)) s with
        | (scheme, String ":" rest) =>
            let proto := JS.toLowerCase scheme +:+ ":" in
            let special :=
              bool_decide (proto = "http:") || bool_decide (proto = "https:") in
            if JS.startsWith rest "//" then
              let '(host, _) :=
                breakAt endsHost (String.substring 2 (String.length rest - 2) rest) in
              if special then
                if negb (JS.truthy host) then None
                else Some (mkURL proto (JS.toLowerCase host))
              else Some (mkURL proto host)
            else if special then None
            else Some (mkURL proto EmptyString)
        | _ => None
        end
  end.

Definition digit (c : ascii) : option Z :=
  if JS.isDigit c then Some (Z.of_N (JS.code c) - 48) else None.

(** The decimal number written by a string of digits. *)
Fixpoint digitsGo (acc : Z) (s : string) : option Z :=
  match s with
  | EmptyString => Some acc
  | String c s' =>
      match digit c with
      | Some d => digitsGo (acc * 10 + d) s'
      | None => None
      end
  end.

Definition number (s : string) : option Z :=
  match s with EmptyString => None | _ => digitsGo 0 s end.

(** Days from 1970-01-01 to the civil date [y]-[m]-[d]. *)
Definition daysFromCivil (y m d : Z) : Z :=
  let y' := if m <=? 2 then y - 1 else y in
  let era := y' / 400 in
  let yoe := y' - era * 400 in
  let doy := (153 * (if 2 <? m then m - 3 else m + 9) + 2) / 5 + d - 1 in
  let doe := yoe * 365 + yoe / 4 - yoe / 100 + doy in
  era * 146097 + doe - 719468.

Definition isLeap (y : Z) : bool :=
  ((y mod 4 =? 0) && negb (y mod 100 =? 0)) || (y mod 400 =? 0).

Definition daysInMonth (y m : Z) : Z :=
  if m =? 2 then (if isLeap y then 29 else 28)
  else if (m =? 4) || (m =? 6) || (m =? 9) || (m =? 11) then 30
  else 31.

Definition inRange (lo x hi : Z) : bool := (lo <=? x) && (x <=? hi).

Definition parseDate (s : string) : option Z :=
  if negb ((String.length s =? 20)%nat &&
           bool_decide (String.substring 4 1 s = "-") &&
           bool_decide (String.substring 7 1 s = "-") &&
           bool_decide (String.substring 10 1 s = "T") &&
           bool_decide (String.substring 13 1 s = ":") &&
           bool_decide (String.substring 16 1 s = ":") &&
           bool_decide (String.substring 19 1 s = "Z"))
  then None
  else
    match number (String.substring 0 4 s), number (String.substring 5 2 s),
          number (String.substring 8 2 s), number (String.substring 11 2 s),
          number (String.substring 14 2 s), number (String.substring 17 2 s) with
    | Some y, Some mo, Some d, Some h, Some mi, Some sec =>
        if inRange 1 mo 12 && inRange 1 d (daysInMonth y mo) &&
           inRange 0 h 23 && inRange 0 mi 59 && inRange 0 sec 59
        then Some (((daysFromCivil y mo d * 24 + h) * 60 + mi) * 60000 + sec * 1000)
        else None
    | _, _, _, _, _, _ => None
    end.

(** [n] in decimal, padded with zeros to [width] digits. *)
Definition padded (width : nat) (n : Z) : string :=
  let s : string := pretty (Z.to_N n) in
  String.concat EmptyString (replicate (width - String.length s) "0") +:+ s.

(** The civil date of a day number, for the years 0 to 9999. *)
Definition toISOString (ms : Z) : string :=
  let days := ms / 86400000 in
  let rest := ms mod 86400000 in
  let z := days + 719468 in
  let era := z / 146097 in
  let doe := z - era * 146097 in
  let yoe := (doe - doe / 1460 + doe / 36524 - doe / 146096) / 365 in
  let doy := doe - (365 * yoe + yoe / 4 - yoe / 100) in
  let mp := (5 * doy + 2) / 153 in
  let d := doy - (153 * mp + 2) / 5 + 1 in
  let m := if mp <? 10 then mp + 3 else mp - 9 in
  let y := yoe + era * 400 + (if m <=? 2 then 1 else 0) in
  padded 4 y +:+ "-" +:+ padded 2 m +:+ "-" +:+ padded 2 d +:+ "T" +:+
  padded 2 (rest / 3600000) +:+ ":" +:+ padded 2 (rest / 60000 mod 60) +:+ ":" +:+
  padded 2 (rest / 1000 mod 60) +:+ "." +:+ padded 3 (rest mod 1000) +:+ "Z".

Definition notFound : FetchOutcome :=
  FetchResolves (mkResponse 404 "Not Found" (Some "text/html") (inl EmptyString)).

Definition manifest : string :=
  "Contact: mailto:security@example.co.uk" +:+ String "010" EmptyString +:+
  "Expires: 2099-01-01T00:00:00Z" +:+ String "010" EmptyString.

(** The site publishes the manifest on the registrable domain only; the
    host [down.example.org] does not resolve. *)
Definition answer (url : string) (t : Z) : FetchOutcome * Z :=
  if bool_decide (url = "https://example.co.uk/.well-known/security.txt")
  then (FetchResolves (mkResponse 200 "OK" (Some "text/plain") (inl manifest)), t + 40)
  else if JS.startsWith url "https://down.example.org/"
  then (FetchRejects "Failed to fetch", t + 40)
  else (notFound, t + 40).

Definition platform : Platform :=
  {| URL_new := parseURL;
     Date_getTime := parseDate;
     Date_toISOString := toISOString;
     Net := Z;
     fetch_net := answer;
     now_net := fun t => t |}.

(** A fresh browser session: nothing requested, nothing stored, the clock
    at 2026-01-01T00:00:00Z. *)
Definition world0 : @World platform :=
  @mkWorld platform 1767225600000 [] None false ∅ ∅ ∅.

End Reference.

(** The candidate URLs of a probe cycle, in the order of the two loops of
    [probeSecurityTxt]: host by host, and for each host the list that
    [buildCandidateUrlsForHost] gives. *)
Definition candidateUrls (s : Settings) (host : string) : list string :=
  flat_map
    (fun h => buildCandidateUrlsForHost h (endpointsOf s) (tryHttpFallback s))
    (hostsToTry host).

(** No attempt of the list succeeded. *)
Definition allFailed (l : list Attempt) : Prop :=
  Forall (fun a => att_ok a = false) l.

(** What a probe cycle over the two hosts [host] and [apex] leaves in its
    result [r], where [exact] are the candidates of [host] and [fallback]
    those of [apex].  Either it stopped on a candidate of [host]: the
    attempts are failures followed by one success, all among [exact]; or
    every candidate of [host] was attempted and failed, and after them the
    candidates of [apex] were attempted, up to the first success, or all of
    them without success. *)
Definition hostThenApex (host apex : string) (exact fallback : list string)
    (r : ProbeResult) : Prop :=
  (found r = true /\
   checkedHost r = host /\ checkedHostMode r = ModeHost /\
   exists pre a,
     attempts r = pre ++ [a] /\ allFailed pre /\ att_ok a = true /\
     map att_url (pre ++ [a]) `prefix_of` exact)
  \/
  (found r = true /\
   checkedHost r = apex /\ checkedHostMode r = ModeApex /\
   exists first pre a,
     attempts r = first ++ pre ++ [a] /\
     map att_url first = exact /\ allFailed first /\
     allFailed pre /\ att_ok a = true /\
     map att_url (pre ++ [a]) `prefix_of` fallback)
  \/
  (found r = false /\
   exists first second,
     attempts r = first ++ second /\
     map att_url first = exact /\ map att_url second = fallback /\
     allFailed first /\ allFailed second).

(** The candidates of the scenario host when only HTTPS is tried and the
    user has added no endpoint. *)
Definition scenarioCandidates : list string :=
  ["https://www.example.co.uk/.well-known/security.txt";
   "https://www.example.co.uk/.well-known/Security.txt";
   "https://www.example.co.uk/.well-known/security.TXT";
   "https://www.example.co.uk/.well-known/SECURITY.TXT";
   "https://www.example.co.uk/security.txt";
   "https://www.example.co.uk/Security.txt";
   "https://www.example.co.uk/security.TXT";
   "https://www.example.co.uk/SECURITY.TXT";
   "https://example.co.uk/.well-known/security.txt";
   "https://example.co.uk/.well-known/Security.txt";
   "https://example.co.uk/.well-known/security.TXT";
   "https://example.co.uk/.well-known/SECURITY.TXT";
   "https://example.co.uk/security.txt";
   "https://example.co.uk/Security.txt";
   "https://example.co.uk/security.TXT";
   "https://example.co.uk/SECURITY.TXT"].

(** The cache entry of a tab whose URL is not probed. *)
Definition notApplicable (tabUrl : option string) (now : Z) : Payload :=
  mkPayload tabUrl now false None None None None []
    (Some "Not an http(s) URL") None None.

(** The test of the verdict for a fail issue. *)
Local Abbreviation hasFail :=
  (existsb (fun i => bool_decide (level i = LevelFail))).

(** Some issue of the report has the level [l]. *)
Definition someIssue (l : Level) (r : Report) : Prop :=
  Exists (fun i => level i = l) (issues r).

(** The keys [lint] reads. *)
Definition LINT_KEYS : list string :=
  ["contact"; "expires"; "policy"; "preferred-languages"; "encryption";
   "acknowledgments"; "hiring"; "__unparsed"].

(** Two field maps store the same values under every key [lint] reads. *)
Definition sameLintValues (f g : gmap string FieldEntry) : Prop :=
  forall k, k ∈ LINT_KEYS -> valuesOf f k = valuesOf g k.

(** The comparison of the first Expires value with the instant [now]:
    the value is a date and lies strictly before [now]. *)
Definition expiredAt `{P : Platform} (now : Z) (fields : gmap string FieldEntry) : bool :=
  match valuesOf fields "expires" with
  | [] => false
  | e0 :: _ =>
      match parseRfc3339Date e0 with
      | Some d => d <? now
      | None => false
      end
  end.

(** ** Field maps and texts of the scenarios *)

Definition LF : string := String "010" EmptyString.

(** A manifest without Contact whose other fields are all in order. *)
Definition noContactText : string :=
  "Expires: 2099-01-01T00:00:00Z" +:+ LF +:+
  "Policy: https://example.com/security-policy" +:+ LF +:+
  "Encryption: https://example.com/pgp-key.txt" +:+ LF +:+
  "Acknowledgments: https://example.com/hall-of-fame" +:+ LF +:+
  "Hiring: https://example.com/jobs" +:+ LF.

Definition noContactFields : gmap string FieldEntry :=
  list_to_map
    [("expires", mkField "Expires" ["2099-01-01T00:00:00Z"]);
     ("policy", mkField "Policy" ["https://example.com/security-policy"]);
     ("encryption", mkField "Encryption" ["https://example.com/pgp-key.txt"]);
     ("acknowledgments", mkField "Acknowledgments" ["https://example.com/hall-of-fame"]);
     ("hiring", mkField "Hiring" ["https://example.com/jobs"])].

(** [noContactFields] with a Canonical field added. *)
Definition canonicalFields : gmap string FieldEntry :=
  <["canonical" := mkField "Canonical" ["https://example.com/.well-known/security.txt"]]>
    noContactFields.

(** A manifest with a line the grammar does not accept, and one whose
    field name collides with a property of [Object.prototype]. *)
Definition reservedNameText : string :=
  "__unparsed: x" +:+ LF +:+ "Contact: mailto:a@example.com" +:+ LF.

Definition reservedNameFields : gmap string FieldEntry :=
  list_to_map
    [("__unparsed", mkField "__unparsed" ["__unparsed: x"]);
     ("contact", mkField "Contact" ["mailto:a@example.com"])].

Definition constructorText : string :=
  "Contact: mailto:a@example.com" +:+ LF +:+ "Constructor: x" +:+ LF.

(** A manifest with CR LF line ends, a comment, a repeated field in two
    letter cases, optional space before the colon and a line of prose. *)
Definition mixedText : string :=
  let CRLF := String "013" LF in
  "# security contact" +:+ CRLF +:+
  "Contact : mailto:a@example.com" +:+ CRLF +:+
  CRLF +:+
  "  please report responsibly  " +:+ CRLF +:+
  "CONTACT:https://example.com/report" +:+ CRLF +:+
  "Preferred-Languages: en, nl-NL, not_a_tag".

Definition mixedFields : gmap string FieldEntry :=
  list_to_map
    [("contact",
      mkField "Contact" ["mailto:a@example.com"; "https://example.com/report"]);
     ("__unparsed", mkField "__unparsed" ["  please report responsibly  "]);
     ("preferred-languages",
      mkField "Preferred-Languages" ["en, nl-NL, not_a_tag"])].

Definition expiredText : string := "Expires: 2000-01-01T00:00:00Z" +:+ LF.

Definition expiredFields : gmap string FieldEntry :=
  {[ "expires" := mkField "Expires" ["2000-01-01T00:00:00Z"] ]}.

(** 2026-01-01T00:00:00Z in milliseconds. *)
Definition year2026 : Z := 1767225600000.

(** 2000-01-01T00:00:00Z in milliseconds. *)
Definition year2000 : Z := 946684800000.

(** ** service_worker.js: the message listener *)

Section Messages.
Context `{P : Platform}.

Notation "x <- m ;; k" := (bind m (fun x => k))
  (at level 100, m at next level, right associativity).
Notation "m ;;; k" := (bind m (fun _ => k))
  (at level 100, right associativity).

(** The messages by their [type]; any other shape is [OtherMessage]. *)
Inductive Message :=
| GET_TAB_RESULT (tabId : Z)
| FORCE_RECHECK (tabId : Z)
| OtherMessage.

(** What [sendResponse] is called with. *)
Inductive Reply :=
| ReplyResult (result : option Payload)
| ReplyError (error : string).

(** The listener of [chrome.runtime.onMessage].  [tabsGet] is
    [chrome.tabs.get]: [None] when it rejects (then [sendResponse] is never
    called), otherwise the [url] of the tab, which may be missing. *)
Definition onMessage (tabsGet : Z -> option (option string)) (msg : Message)
    : M Reply :=
  match msg with
  | GET_TAB_RESULT tabId =>
      cached <- getCachedTabResult tabId ;;
      ret (ReplyResult cached)
  | FORCE_RECHECK tabId =>
      match tabsGet tabId with
      | None => throw
      | Some url =>
          (if negb (falsyUrl url) then checkTab tabId url else ret tt) ;;;
          cached <- getCachedTabResult tabId ;;
          ret (ReplyResult cached)
      end
  | OtherMessage => ret (ReplyError "Unknown message")
  end.

(** ** options.js: the list of extra endpoints *)

(** [getAll().extra] *)
Definition storedExtra (w : World) : list string :=
  match sync_extraEndpoints w with Some l => l | None => [] end.

(** [setExtra(extra)] *)
Definition setExtra (extra : list string) : M unit :=
  modify (fun w => mkWorld _ (net w) (requests w) (Some extra)
                     (sync_tryHttpFallback w) (session w)
                     (badgeText w) (badgeColor w)).

(** The click handler of the Add button, for the text [input] of the box. *)
Definition addEndpoint (input : string) : M unit :=
  let ep := normalizePath input in
  if negb (JS.truthy ep) then ret tt
  else
    w <- get ;;
    let normalized := List.filter JS.truthy (map normalizePath (storedExtra w)) in
    if negb (bool_decide (ep ∈ normalized)) then setExtra (normalized ++ [ep])
    else ret tt.

(** The click handler of the Remove button of the list item [ep]. *)
Definition removeEndpoint (ep : string) : M unit :=
  w <- get ;;
  setExtra (List.filter (fun x => negb (bool_decide (x = ep))) (storedExtra w)).

End Messages.

(** ** popup.js: quick actions and HTML escaping *)

Section Popup.
Context `{P : Platform}.

(** The test of the two [try] blocks: the string parses as a URL whose
    protocol is https or http. *)
Definition httpOrHttps (s : string) : bool :=
  match URL_new s with
  | Some u => bool_decide (protocol u = "https:") || bool_decide (protocol u = "http:")
  | None => false
  end.

(** The loop of [pickBestContact]. *)
Fixpoint firstContact (contacts : list string) : option string :=
  match contacts with
  | [] => None
  | v :: rest =>
      let s := JS.trim v in
      if negb (JS.truthy s) then firstContact rest
      else if JS.prefixI "mailto:" s then Some s
      else if httpOrHttps s then Some s
      else firstContact rest
  end.

(** [pickBestContact(fields)] *)
Definition pickBestContact (fields : gmap string FieldEntry) : option string :=
  firstContact (valuesOf fields "contact").

(** The loop of [pickBestPolicy]. *)
Fixpoint firstPolicy (policies : list string) : option string :=
  match policies with
  | [] => None
  | v :: rest =>
      let s := JS.trim v in
      if negb (JS.truthy s) then firstPolicy rest
      else if httpOrHttps s then Some s
      else firstPolicy rest
  end.

(** [pickBestPolicy(fields)] *)
Definition pickBestPolicy (fields : gmap string FieldEntry) : option string :=
  firstPolicy (valuesOf fields "policy").

End Popup.

(** [s.replaceAll(c, r)] for a one-character pattern [c] and a replacement
    [r] without replacement patterns. *)
Fixpoint replaceAll (c : ascii) (r : string) (s : string) : string :=
  match s with
  | EmptyString => EmptyString
  | String d s' =>
      if bool_decide (d = c) then r +:+ replaceAll c r s'
      else String d (replaceAll c r s')
  end.

(** [escapeHtml(s)] for a string [s]; the character 34 is the double
    quote. *)
Definition escapeHtml (s : string) : string :=
  replaceAll "'" "&#039;"
    (replaceAll "034" "&quot;"
       (replaceAll ">" "&gt;"
          (replaceAll "<" "&lt;"
             (replaceAll "&" "&amp;" s)))).

(** What one character becomes when all five are escaped at once. *)
Definition escapeChar (c : ascii) : string :=
  if bool_decide (c = "&"%char) then "&amp;"
  else if bool_decide (c = "<"%char) then "&lt;"
  else if bool_decide (c = ">"%char) then "&gt;"
  else if bool_decide (c = "034"%char) then "&quot;"
  else if bool_decide (c = "'"%char) then "&#039;"
  else String c EmptyString.

Fixpoint escapeEach (s : string) : string :=
  match s with
  | EmptyString => EmptyString
  | String c s' => escapeChar c +:+ escapeEach s'
  end.

(** The character [c] occurs in [s]. *)
Fixpoint occurs (c : ascii) (s : string) : bool :=
  match s with
  | EmptyString => false
  | String d s' => bool_decide (d = c) || occurs c s'
  end.

(** What the result of a successful probe holds about its last attempt. *)
Definition describesSuccess (host : string) (res : ProbeResult) (h url : string) : Prop :=
  exists a,
    last (attempts res) = Some a /\
    att_url a = url /\ att_ok a = true /\
    foundUrl res = Some url /\
    status res = att_status a /\
    contentType res = att_contentType a /\
    (exists st, status res = Some st /\ 200 <= st <= 299) /\
    (is_Some (text res) \/ is_Some (att_error a)) /\
    checkedHost res = h /\
    checkedHostMode res = (if bool_decide (h = host) then ModeHost else ModeApex).

(** The badge text and colour that go with a cache entry: [NO] when
    nothing was found, [OK] when the text found has a Contact line, [!]
    otherwise. *)
Definition badgeTextOf `{P : Platform} (pl : Payload) : string :=
  if pl_found pl then
    match quickLintState (pl_text pl) with
    | BadgeOk => "OK"
    | _ => "!"
    end
  else "NO".

Definition badgeColorOf `{P : Platform} (pl : Payload) : string :=
  if pl_found pl then
    match quickLintState (pl_text pl) with
    | BadgeOk => "#2e7d32"
    | _ => "#f9a825"
    end
  else "#b71c1c".

(** The outcome of the probe cycle of the scenario on the reference
    platform. *)
Definition scenarioOutcome : option (ProbeResult * World (H := Reference.platform)) :=
  Eval vm_compute in
    probeSecurityTxt (P := Reference.platform)
      "https://www.example.co.uk/index.html" Reference.world0.

Definition scenarioResult : ProbeResult :=
  match scenarioOutcome with
  | Some (r, _) => r
  | None => mkProbeResult false None None None None [] EmptyString ModeHost
  end.

Definition scenarioWorld : World (H := Reference.platform) :=
  match scenarioOutcome with
  | Some (_, w) => w
  | None => Reference.world0
  end.

(** The worker's own state is the same in two worlds: the stored
    settings, the session area and the badges. *)
Definition sameStore `{P : Platform} (w w' : World) : Prop :=
  session w' = session w /\
  badgeText w' = badgeText w /\
  badgeColor w' = badgeColor w /\
  sync_extraEndpoints w' = sync_extraEndpoints w /\
  sync_tryHttpFallback w' = sync_tryHttpFallback w.

(** A text with a Contact line as the badge's quick check reads it: at the
    start of the text or right after a line terminator comes the word
    [contact] in any letter case, then optional white space, then a
    colon. *)
Definition hasContactAt (s : string) : Prop :=
  exists before word ws rest,
    s = before +:+ word +:+ ws +:+ ":" +:+ rest /\
    (before = EmptyString \/
     exists pre c, before = pre +:+ String c EmptyString /\
                   JS.isLineTerminator c = true) /\
    JS.equalI "contact" word = true /\
    allChars JS.isWhiteSpace ws = true.

(** ** Readings of the parser and the lint rules used in the properties *)

(** The characters of a lower-cased field name: small letters, digits and
    the hyphen. *)
Definition lowerNameChar (c : ascii) : bool :=
  JS.isLowerAZ c || JS.isDigit c || bool_decide (c = "-"%char).

(** The field lines of [lines] whose lower-cased name is [k], as pairs of
    the name as written and the value, in order. *)
Definition occurrences (k : string) (lines : list string) : list (string * string) :=
  omap (fun line0 =>
          match classify line0 with
          | FieldLine nm value =>
              if bool_decide (JS.toLowerCase nm = k) then Some (nm, value) else None
          | _ => None
          end) lines.

(** The entry of a key after one more field line for it. *)
Definition entryPush (b : option FieldEntry) (o : string * string) : option FieldEntry :=
  match b with
  | Some e => Some (mkField (name e) (values e ++ [o.2]))
  | None => Some (mkField o.1 [o.2])
  end.

(** The language tags [lint] checks: the values cut at commas, trimmed,
    without the empty ones. *)
Definition languageTags (prefLang : list string) : list string :=
  List.filter JS.truthy (map JS.trim (flat_map (JS.split ",") prefLang)).

(** The conditions under which no rule of [lint] reports an issue. *)
Definition healthy `{P : Platform} (now : Z) (fields : gmap string FieldEntry) : bool :=
  negb (length (valuesOf fields "contact") =? 0)%nat &&
  forallb looksLikeUrlOrMailto (valuesOf fields "contact") &&
  match valuesOf fields "expires" with
  | [] => false
  | e0 :: _ =>
      match parseRfc3339Date e0 with
      | Some d => negb (d <? now)
      | None => false
      end
  end &&
  negb (length (valuesOf fields "policy") =? 0)%nat &&
  forallb looksLikeUrlOrMailto (valuesOf fields "policy") &&
  forallb langTagOk (languageTags (valuesOf fields "preferred-languages")) &&
  negb (0 <? length (valuesOf fields "__unparsed"))%nat.

Example reference_date :
  Reference.parseDate "2000-01-01T00:00:00Z" = Some 946684800000 /\
  Reference.parseDate "2099-01-01T00:00:00Z" = Some 4070908800000 /\
  Reference.parseDate "2026-01-01T00:00:00Z" = Some 1767225600000 /\
  Reference.parseDate "tomorrow" = None /\
  Reference.toISOString 946684800000 = "2000-01-01T00:00:00.000Z" /\
  Reference.toISOString 1709210096789 = "2024-02-29T12:34:56.789Z".
Proof. vm_compute. repeat split; reflexivity. Qed.

Example reference_url :
  Reference.parseURL "https://www.example.co.uk/path?q=1" =
    Some (mkURL "https:" "www.example.co.uk") /\
  Reference.parseURL "HTTP://Example.COM:8080" = Some (mkURL "http:" "example.com") /\
  Reference.parseURL "chrome://extensions/" = Some (mkURL "chrome:" "extensions") /\
  Reference.parseURL "mailto:security@example.com" = Some (mkURL "mailto:" EmptyString) /\
  Reference.parseURL "security@example.com" = None /\
  Reference.parseURL EmptyString = None.
Proof. vm_compute. repeat split; reflexivity. Qed.

Example scenario_texts_parse :
  parseSecurityTxt noContactText = Some noContactFields /\
  parseSecurityTxt expiredText = Some expiredFields.
Proof. vm_compute. split; reflexivity. Qed.

Example mixed_text_parse_and_lint :
  parseSecurityTxt mixedText = Some mixedFields /\
  lint (P := Reference.platform) year2026 mixedFields =
    mkReport VerdictWarn (100 - 10 - 5 - 3 - 5)
      [mkIssue LevelWarn "Missing Expires: field (recommended).";
       mkIssue LevelWarn
         "Missing Policy: field (recommended; points to disclosure policy).";
       mkIssue LevelWarn
         "Preferred-Languages: contains suspicious tag(s): not_a_tag";
       mkIssue LevelWarn "Found 1 non “Field: value” line(s)."].
Proof. vm_compute. split; reflexivity. Qed.

(** * Properties *)

(** ** Trimming and path normalization *)

Lemma trimEnd_cons c s :
  JS.isWhiteSpace c = false -> JS.trimEnd (String c s) = String c (JS.trimEnd s).
Proof.
  intros Hc. simpl. destruct (JS.trimEnd s); rewrite ?Hc; reflexivity.
Qed.

Lemma trimEnd_idem s : JS.trimEnd (JS.trimEnd s) = JS.trimEnd s.
Proof.
  induction s as [|c s IH]; simpl; [reflexivity|].
  destruct (JS.trimEnd s) as [|d t] eqn:E.
  - destruct (JS.isWhiteSpace c) eqn:Hc; simpl; rewrite ?Hc; reflexivity.
  - change (JS.trimEnd (String c (String d t))) with
      (match JS.trimEnd (String d t) with
       | EmptyString => if JS.isWhiteSpace c then EmptyString else String c EmptyString
       | u => String c u
       end).
    rewrite IH. reflexivity.
Qed.

Lemma trimStart_head s :
  JS.trimStart s = EmptyString \/
  exists c t, JS.trimStart s = String c t /\ JS.isWhiteSpace c = false.
Proof.
  induction s as [|c s IH]; simpl; [by left|].
  destruct (JS.isWhiteSpace c) eqn:Hc; [exact IH|].
  right. by exists c, s.
Qed.

(** A trimmed string is empty or starts with a character that is not
    white space. *)
Lemma trim_head s :
  JS.trim s = EmptyString \/
  exists c t, JS.trim s = String c t /\ JS.isWhiteSpace c = false.
Proof.
  unfold JS.trim. destruct (trimStart_head s) as [->|(c & t & -> & Hc)].
  - by left.
  - right. exists c, (JS.trimEnd t). split; [by apply trimEnd_cons | done].
Qed.

Lemma trim_fixed c t :
  JS.isWhiteSpace c = false -> JS.trimEnd t = t -> JS.trim (String c t) = String c t.
Proof.
  intros Hc Ht. unfold JS.trim. simpl JS.trimStart. rewrite Hc.
  rewrite trimEnd_cons by done. by rewrite Ht.
Qed.

Lemma trim_idem s : JS.trim (JS.trim s) = JS.trim s.
Proof.
  destruct (trim_head s) as [E|(c & t & E & Hc)]; rewrite E; [reflexivity|].
  apply trim_fixed; [done|].
  assert (H : JS.trimEnd (String c t) = String c t).
  { rewrite <- E. unfold JS.trim. apply trimEnd_idem. }
  rewrite trimEnd_cons in H by done. congruence.
Qed.

Lemma trim_tail_fixed s c t : JS.trim s = String c t -> JS.trimEnd t = t.
Proof.
  intros E. destruct (trim_head s) as [E'|(c' & t' & E' & Hc)]; [congruence|].
  assert (c' = c /\ t' = t) as [-> ->] by (split; congruence).
  assert (H : JS.trimEnd (String c t) = String c t).
  { rewrite <- E. unfold JS.trim. apply trimEnd_idem. }
  rewrite trimEnd_cons in H by done. congruence.
Qed.

Lemma startsWith_slash c t :
  JS.startsWith (String c t) "/" = if Ascii.ascii_dec "/" c then true else false.
Proof.
  unfold JS.startsWith. cbn [String.prefix].
  destruct (Ascii.ascii_dec "/" c); [by destruct t | reflexivity].
Qed.

Lemma normalizePath_cases p :
  (JS.trim p = EmptyString /\ normalizePath p = EmptyString) \/
  (exists t, JS.trim p = String "/" t /\ normalizePath p = String "/" t) \/
  (exists c t, JS.trim p = String c t /\ c <> "/"%char /\
               normalizePath p = String "/" (String c t)).
Proof.
  unfold normalizePath. destruct (JS.trim p) as [|c t] eqn:E; [by left|].
  right. cbn [JS.truthy negb]. rewrite startsWith_slash.
  destruct (Ascii.ascii_dec "/" c) as [<-|Hne].
  - left. by exists t.
  - right. exists c, t. split; [done|]. split; [congruence | reflexivity].
Qed.

(** C4 (as amended).  Path normalization is idempotent, and its result is
    the empty string when the path is empty or only white space, and starts
    with a slash otherwise. *)
Theorem normalizePath_idempotent_slash (p : string) :
  normalizePath (normalizePath p) = normalizePath p /\
  ((JS.trim p = EmptyString /\ normalizePath p = EmptyString) \/
   (JS.trim p <> EmptyString /\ JS.startsWith (normalizePath p) "/" = true)).
Proof.
  destruct (normalizePath_cases p)
    as [[E N]|[(t & E & N)|(c & t & E & Hc & N)]]; rewrite N.
  - split; [reflexivity | left; done].
  - split; [|right; split; [congruence | by rewrite startsWith_slash]].
    pose proof (trim_tail_fixed _ _ _ E) as Ht.
    unfold normalizePath. rewrite trim_fixed by done.
    cbn [JS.truthy negb]. by rewrite startsWith_slash.
  - split; [|right; split; [congruence | by rewrite startsWith_slash]].
    pose proof (trim_tail_fixed _ _ _ E) as Ht.
    destruct (trim_head p) as [E'|(c' & t' & E' & Hws)]; [congruence|].
    assert (c' = c) as -> by congruence.
    unfold normalizePath. rewrite trim_fixed; [reflexivity | done |].
    rewrite trimEnd_cons by done. by rewrite Ht.
Qed.

(** C4, counterexample.  A path of blanks is normalized to the empty
    string, which does not start with a slash. *)
Lemma normalizePath_blank_no_slash :
  normalizePath "   " = EmptyString /\ JS.startsWith (normalizePath "   ") "/" = false.
Proof. split; reflexivity. Qed.

(** ** Lint engine *)

(** Each rule of [lint] hands a pair of the issues and the score to the
    next one; this names the pairs without looking into the rules. *)
Ltac lint_rules :=
  unfold lint;
  repeat match goal with
         | |- context [match ?e with (_, _) => _ end] =>
             let i := fresh "issues" in
             let s := fresh "score" in
             destruct e as [i s]
         end;
  cbn [score verdict issues].

(** C5.  The score of a lint report lies between 0 and 100. *)
Theorem lint_score_clamped `{P : Platform} (now : Z) (fields : gmap string FieldEntry) :
  0 <= score (lint now fields) <= 100.
Proof. lint_rules. lia. Qed.

Lemma existsb_level (l : Level) (iss : list Issue) :
  existsb (fun i => bool_decide (level i = l)) iss = true <->
  Exists (fun i => level i = l) iss.
Proof.
  rewrite existsb_exists, Exists_exists. split.
  - intros (i & Hin & Hl). exists i. split; [by apply list_elem_of_In|].
    by apply bool_decide_eq_true in Hl.
  - intros (i & Hin & Hl). exists i. split; [by apply list_elem_of_In|].
    by apply bool_decide_eq_true.
Qed.

(** C6.  The verdict is read off the issues of the same report: fail when
    some issue is a fail, otherwise warn when some issue is a warn,
    otherwise ok. *)
Theorem lint_verdict_derived `{P : Platform} (now : Z) (fields : gmap string FieldEntry) :
  (someIssue LevelFail (lint now fields) ->
   verdict (lint now fields) = VerdictFail) /\
  (~ someIssue LevelFail (lint now fields) ->
   someIssue LevelWarn (lint now fields) ->
   verdict (lint now fields) = VerdictWarn) /\
  (~ someIssue LevelFail (lint now fields) ->
   ~ someIssue LevelWarn (lint now fields) ->
   verdict (lint now fields) = VerdictOk).
Proof.
  unfold someIssue. lint_rules. rewrite <- !existsb_level.
  destruct (existsb _ _); [|destruct (existsb _ _)]; repeat split; congruence.
Qed.

(** C6, witness: the expired manifest has a fail issue and the verdict
    fail. *)
Lemma lint_verdict_derived_witness :
  someIssue LevelFail (lint (P := Reference.platform) year2026 expiredFields) /\
  verdict (lint (P := Reference.platform) year2026 expiredFields) = VerdictFail.
Proof.
  assert (H : someIssue LevelFail (lint (P := Reference.platform) year2026 expiredFields)).
  { vm_compute. apply Exists_cons_hd. reflexivity. }
  split; [exact H|].
  exact (proj1 (lint_verdict_derived (P := Reference.platform) year2026 expiredFields) H).
Defined.

(** One rule of [lint], as the equation [c] between the rule and the pair
    it hands on: the rule keeps a fail issue that is already there and
    does not raise the score. *)
Ltac rule_keeps c :=
  revert c; repeat case_match; intros [= <- <-];
  rewrite ?existsb_app;
  (split; [ repeat match goal with
                   | H : existsb _ ?l = true |- context [existsb _ ?l] => rewrite H
                   end; reflexivity
          | lia ]).

Ltac next_rule c l z :=
  match goal with
  | |- context [match ?e with (_, _) => _ end] => destruct e as [l z] eqn:c
  end.

(** C2 (as amended).  A field map without a Contact entry gets the verdict
    fail and a score of at most 46: 100 less the penalty of 60, plus the
    bonus of at most 6. *)
Theorem lint_no_contact_fail_46 `{P : Platform} (now : Z) (fields : gmap string FieldEntry) :
  fields !! "contact" = None ->
  verdict (lint now fields) = VerdictFail /\ score (lint now fields) <= 46.
Proof.
  intros Hc.
  assert (Hv : valuesOf fields "contact" = []) by (unfold valuesOf; by rewrite Hc).
  unfold lint. rewrite Hv. cbn [length Nat.eqb].
  set (i0 := [] ++ [_]).
  assert (H0 : hasFail i0 = true) by reflexivity.
  clearbody i0. set (z0 := 100 - 60).
  next_rule c1 l1 z1.
  assert (hasFail l1 = true /\ z1 <= z0) as [H1 L1] by rule_keeps c1.
  next_rule c2 l2 z2.
  assert (hasFail l2 = true /\ z2 <= z1) as [H2 L2] by rule_keeps c2.
  next_rule c3 l3 z3.
  assert (hasFail l3 = true /\ z3 <= z2) as [H3 L3] by rule_keeps c3.
  next_rule c4 l4 z4.
  assert (hasFail l4 = true /\ z4 <= z3 + 6) as [H4 L4] by rule_keeps c4.
  cbn [verdict score]. rewrite H4. split; [reflexivity|]. subst z0. lia.
Qed.

(** C2, witness. *)
Lemma lint_no_contact_fail_46_witness :
  noContactFields !! "contact" = None /\
  verdict (lint (P := Reference.platform) year2026 noContactFields) = VerdictFail /\
  score (lint (P := Reference.platform) year2026 noContactFields) <= 46.
Proof.
  assert (H : noContactFields !! "contact" = None) by (vm_compute; reflexivity).
  split; [exact H|].
  exact (lint_no_contact_fail_46 (P := Reference.platform) year2026 noContactFields H).
Defined.

(** C2, counterexample.  The manifest [noContactText] has no Contact; its
    Expires lies ahead, its Policy is a URL and the three optional fields
    are there, so the score is 100 - 60 + 6 = 46, more than 40. *)
Lemma lint_no_contact_score_above_40 :
  parseSecurityTxt noContactText = Some noContactFields /\
  noContactFields !! "contact" = None /\
  score (lint (P := Reference.platform) year2026 noContactFields) = 46 /\
  ~ score (lint (P := Reference.platform) year2026 noContactFields) <= 40.
Proof.
  split; [vm_compute; reflexivity|].
  split; [vm_compute; reflexivity|].
  assert (E : score (lint (P := Reference.platform) year2026 noContactFields) = 46)
    by (vm_compute; reflexivity).
  split; [exact E | rewrite E; lia].
Qed.

(** Reads the values of the lint keys off a concrete field map. *)
Ltac eval_values f :=
  repeat match goal with
         | |- context [valuesOf f ?k] =>
             let v := eval vm_compute in (valuesOf f k) in
             change (valuesOf f k) with v
         end.

(** C3 (as amended).  At any instant after 2000-01-01T00:00:00Z, on a
    platform that reads that date as 946684800000 ms, the manifest with the
    single line [Expires: 2000-01-01T00:00:00Z] parses, and its lint report
    has the verdict fail, the issues fail (no Contact), fail (expired) and
    warn (no Policy), and the score max(0, 100 - 60 - 35 - 5) = 0. *)
Theorem lint_expired_manifest `{P : Platform} (now : Z) :
  Date_getTime "2000-01-01T00:00:00Z" = Some year2000 ->
  year2000 < now ->
  exists fields,
    parseSecurityTxt expiredText = Some fields /\
    verdict (lint now fields) = VerdictFail /\
    map level (issues (lint now fields)) = [LevelFail; LevelFail; LevelWarn] /\
    score (lint now fields) = Z.max 0 (100 - 60 - 35 - 5) /\
    score (lint now fields) = 0.
Proof.
  intros Hdate Hnow. exists expiredFields.
  split; [vm_compute; reflexivity|].
  unfold lint. eval_values expiredFields.
  unfold parseRfc3339Date.
  change (JS.trim "2000-01-01T00:00:00Z") with "2000-01-01T00:00:00Z".
  cbn [JS.truthy negb]. rewrite Hdate.
  rewrite (proj2 (Z.ltb_lt _ _) Hnow).
  vm_compute. repeat split; reflexivity.
Qed.

(** C3, witness: the reference platform on 2026-01-01. *)
Lemma lint_expired_manifest_witness :
  Date_getTime (Platform := Reference.platform) "2000-01-01T00:00:00Z" = Some year2000 /\
  year2000 < year2026 /\
  exists fields,
    parseSecurityTxt expiredText = Some fields /\
    verdict (lint (P := Reference.platform) year2026 fields) = VerdictFail /\
    map level (issues (lint (P := Reference.platform) year2026 fields)) =
      [LevelFail; LevelFail; LevelWarn] /\
    score (lint (P := Reference.platform) year2026 fields) = Z.max 0 (100 - 60 - 35 - 5) /\
    score (lint (P := Reference.platform) year2026 fields) = 0.
Proof.
  assert (Hd : Date_getTime (Platform := Reference.platform) "2000-01-01T00:00:00Z"
               = Some year2000) by (vm_compute; reflexivity).
  assert (Hn : year2000 < year2026) by (vm_compute; reflexivity).
  split; [exact Hd|]. split; [exact Hn|].
  exact (lint_expired_manifest (P := Reference.platform) year2026 Hd Hn).
Defined.

(** C3, counterexample.  On the reference platform on 2026-01-01 the
    manifest parses to the field map [expiredFields], whose score is 0 and
    not 5: the missing Policy costs 5 more. *)
Lemma lint_expired_manifest_score_not_5 :
  parseSecurityTxt expiredText = Some expiredFields /\
  year2000 < year2026 /\
  verdict (lint (P := Reference.platform) year2026 expiredFields) = VerdictFail /\
  score (lint (P := Reference.platform) year2026 expiredFields) = 0 /\
  score (lint (P := Reference.platform) year2026 expiredFields) <> 5.
Proof. vm_compute. repeat split; (reflexivity || discriminate). Qed.

Lemma valuesOf_insert_ne (f : gmap string FieldEntry) k k' e :
  k <> k' -> valuesOf (<[k := e]> f) k' = valuesOf f k'.
Proof. intros Hne. unfold valuesOf. by rewrite lookup_insert_ne. Qed.

Lemma lint_same_values `{P : Platform} (now : Z) (f g : gmap string FieldEntry) :
  sameLintValues f g -> lint now f = lint now g.
Proof.
  intros H. unfold lint.
  rewrite !(H "contact"), !(H "expires"), !(H "policy"),
    !(H "preferred-languages"), !(H "encryption"), !(H "acknowledgments"),
    !(H "hiring"), !(H "__unparsed");
    first [reflexivity | unfold LINT_KEYS; set_solver].
Qed.

Lemma lint_same_expired `{P : Platform} (now1 now2 : Z) (f : gmap string FieldEntry) :
  expiredAt now1 f = expiredAt now2 f -> lint now1 f = lint now2 f.
Proof.
  unfold expiredAt, lint. intros H.
  destruct (valuesOf f "expires") as [|e0 ?]; [reflexivity|].
  destruct (parseRfc3339Date e0) as [d|]; [|reflexivity].
  by rewrite H.
Qed.

(** C10.  The report of [lint] is a function of the values stored under the
    eight keys it reads and of the instant: field maps that agree on those
    values get equal reports at the same instant; setting any other key
    leaves the report as it is; and two instants that give the same
    comparison with the first Expires value get equal reports. *)
Theorem lint_noninterference `{P : Platform} :
  (forall now f g, sameLintValues f g -> lint now f = lint now g) /\
  (forall now f k e, k ∉ LINT_KEYS -> lint now (<[k := e]> f) = lint now f) /\
  (forall now1 now2 f, expiredAt now1 f = expiredAt now2 f -> lint now1 f = lint now2 f).
Proof.
  split; [exact lint_same_values|]. split; [|exact lint_same_expired].
  intros now f k e Hk. apply lint_same_values. intros k' Hk'.
  apply valuesOf_insert_ne. intros ->. contradiction.
Qed.

(** C10, witness: a Canonical field added to a manifest, and the instants
    2026-01-01 and one millisecond later. *)
Lemma lint_noninterference_witness :
  ("canonical" ∉ LINT_KEYS) /\
  sameLintValues canonicalFields noContactFields /\
  expiredAt (P := Reference.platform) year2026 noContactFields =
    expiredAt (P := Reference.platform) (year2026 + 1) noContactFields /\
  lint (P := Reference.platform) year2026 canonicalFields =
    lint (P := Reference.platform) year2026 noContactFields /\
  lint (P := Reference.platform) year2026
      (<["canonical" := mkField "canonical" []]> noContactFields) =
    lint (P := Reference.platform) year2026 noContactFields /\
  lint (P := Reference.platform) year2026 noContactFields =
    lint (P := Reference.platform) (year2026 + 1) noContactFields.
Proof.
  assert (Hk : "canonical" ∉ LINT_KEYS).
  { unfold LINT_KEYS. rewrite !not_elem_of_cons. repeat split; try discriminate.
    apply not_elem_of_nil. }
  assert (Hs : sameLintValues canonicalFields noContactFields).
  { intros k Hin. apply valuesOf_insert_ne. intros <-. contradiction. }
  assert (He : expiredAt (P := Reference.platform) year2026 noContactFields =
               expiredAt (P := Reference.platform) (year2026 + 1) noContactFields)
    by (vm_compute; reflexivity).
  destruct (lint_noninterference (P := Reference.platform)) as (T1 & T2 & T3).
  split; [exact Hk|]. split; [exact Hs|]. split; [exact He|].
  split; [exact (T1 year2026 _ _ Hs)|].
  split; [exact (T2 year2026 _ _ _ Hk) | exact (T3 _ _ _ He)].
Defined.

(** ** Manifest parser *)

Lemma parseLine_classify fields line0 :
  parseLine fields line0 =
  match classify line0 with
  | Ignored => Some fields
  | UnparsedLine => pushValue "__unparsed" "__unparsed" line0 fields
  | FieldLine nm value => pushValue (JS.toLowerCase nm) nm value fields
  end.
Proof.
  unfold parseLine, classify.
  destruct (negb (JS.truthy (JS.trim line0))); [reflexivity|].
  destruct (JS.startsWith (JS.trim line0) "#"); [reflexivity|].
  by destruct (matchField (JS.trim line0)) as [[nm v]|].
Qed.

(** [pushValue] succeeds unless the key is a property of the prototype
    that the object does not have itself; it then stores under the key the
    entry that was there (or a fresh one) with the value appended, and
    leaves every other key as it was. *)
Lemma pushValue_spec key nm value (fields : gmap string FieldEntry) :
  match pushValue key nm value fields with
  | Some fields' =>
      (fields !! key = None -> key ∉ OBJECT_PROTOTYPE_KEYS) /\
      fields' !! key =
        Some (match fields !! key with
              | Some e => mkField (name e) (values e ++ [value])
              | None => mkField nm [value]
              end) /\
      (forall k, k <> key -> fields' !! k = fields !! k)
  | None => fields !! key = None /\ key ∈ OBJECT_PROTOTYPE_KEYS
  end.
Proof.
  unfold pushValue, getProp. destruct (fields !! key) as [e|] eqn:E.
  - cbn [falsyProp]. rewrite E. split; [done|]. split.
    + by rewrite lookup_insert_eq.
    + intros k Hk. by rewrite lookup_insert_ne.
  - case_bool_decide as Hp; cbn [falsyProp].
    + rewrite E. rewrite ?bool_decide_eq_true_2 by done. done.
    + rewrite lookup_insert_eq. split; [done|]. split.
      * by rewrite lookup_insert_eq.
      * intros k Hk. by rewrite !lookup_insert_ne.
Qed.

Lemma nameChar_lower_not_underscore c :
  isNameChar c = true -> JS.lowerChar c <> "_"%char.
Proof.
  destruct c as [[] [] [] [] [] [] [] []]; vm_compute; intros H ?; discriminate.
Qed.

Lemma spanName_nonempty s nm rest :
  spanName s = (nm, rest) -> JS.truthy nm = true -> isFieldName nm = true.
Proof.
  revert nm rest. induction s as [|c s IH]; intros nm rest; simpl.
  - intros [= <- <-]. discriminate.
  - destruct (isNameChar c) eqn:Hc; [|intros [= <- <-]; discriminate].
    destruct (spanName s) as [n r] eqn:E. intros [= <- <-] _.
    destruct n as [|d n]; [exact Hc|].
    change (isNameChar c && isFieldName (String d n) = true).
    rewrite Hc. apply (IH _ _ eq_refl). reflexivity.
Qed.

(** The first group of the field pattern is a field name. *)
Lemma matchField_name line nm value :
  matchField line = Some (nm, value) -> isFieldName nm = true.
Proof.
  unfold matchField. destruct (spanName line) as [n r] eqn:E.
  destruct (JS.truthy n) eqn:Hn; cbn [negb]; [|discriminate].
  intros H. assert (n = nm) as <-.
  { repeat case_match; congruence. }
  by eapply spanName_nonempty.
Qed.

Lemma fieldName_key_not_reserved nm :
  isFieldName nm = true -> JS.toLowerCase nm <> "__unparsed".
Proof.
  destruct nm as [|c nm]; [discriminate|]. intros H.
  assert (Hc : isNameChar c = true).
  { simpl in H. destruct nm; [done|]. by apply andb_true_iff in H as [? _]. }
  cbn [JS.toLowerCase]. intros [= Hl _].
  by apply (nameChar_lower_not_underscore c).
Qed.

Lemma classify_field line0 nm value :
  classify line0 = FieldLine nm value ->
  isFieldName nm = true /\ JS.toLowerCase nm <> "__unparsed".
Proof.
  unfold classify. intros H.
  assert (Hm : matchField (JS.trim line0) = Some (nm, value)).
  { repeat case_match; congruence. }
  apply matchField_name in Hm. split; [done|].
  by apply fieldName_key_not_reserved.
Qed.

Lemma foldl_bucketPush_Some e ls :
  foldl bucketPush (Some e) ls = Some (mkField (name e) (values e ++ ls)).
Proof.
  revert e. induction ls as [|l ls IH]; intros e; simpl.
  - rewrite app_nil_r. by destruct e.
  - rewrite IH. simpl. by rewrite <- app_assoc.
Qed.

Lemma foldl_bucketPush_None ls :
  foldl bucketPush None ls =
  match ls with [] => None | _ => Some (mkField "__unparsed" ls) end.
Proof. destruct ls as [|l ls]; [reflexivity|]. simpl. by rewrite foldl_bucketPush_Some. Qed.

(** The loop invariant for the reserved entry: it grows by the unparsed
    lines, one push each, and by nothing else. *)
Lemma parseLines_bucket lines (f f' : gmap string FieldEntry) :
  parseLines lines f = Some f' ->
  f' !! "__unparsed" =
  foldl bucketPush (f !! "__unparsed") (List.filter isUnparsed lines).
Proof.
  revert f. induction lines as [|line0 lines IH]; intros f; simpl.
  - by intros [= ->].
  - destruct (parseLine f line0) as [f1|] eqn:E; [|discriminate].
    intros H. rewrite (IH _ H). clear IH H.
    rewrite parseLine_classify in E. cbn [List.filter]. unfold isUnparsed.
    destruct (classify line0) as [| |nm v] eqn:C.
    + congruence.
    + pose proof (pushValue_spec "__unparsed" "__unparsed" line0 f) as S.
      rewrite E in S. destruct S as (_ & -> & _). cbn [foldl]. f_equal.
      by destruct (f !! "__unparsed").
    + pose proof (pushValue_spec (JS.toLowerCase nm) nm v f) as S.
      rewrite E in S. destruct S as (_ & _ & S). f_equal.
      apply S. apply classify_field in C as [_ C]. congruence.
Qed.

(** The loop invariant for the other entries: each is stored under the
    lower-cased form of its name, and the name is a field name. *)
Lemma parseLines_entries lines (f f' : gmap string FieldEntry) :
  parseLines lines f = Some f' ->
  (forall k e, f !! k = Some e -> k <> "__unparsed" ->
     k = JS.toLowerCase (name e) /\ isFieldName (name e) = true) ->
  forall k e, f' !! k = Some e -> k <> "__unparsed" ->
     k = JS.toLowerCase (name e) /\ isFieldName (name e) = true.
Proof.
  revert f. induction lines as [|line0 lines IH]; intros f; simpl.
  - by intros [= ->].
  - destruct (parseLine f line0) as [f1|] eqn:E; [|discriminate].
    intros H Inv. apply (IH _ H). clear IH H f'.
    rewrite parseLine_classify in E.
    destruct (classify line0) as [| |nm v] eqn:C.
    + injection E as <-. exact Inv.
    + pose proof (pushValue_spec "__unparsed" "__unparsed" line0 f) as S.
      rewrite E in S. destruct S as (_ & _ & S).
      intros k e Hk Hne. rewrite S in Hk by done. by apply Inv.
    + pose proof (pushValue_spec (JS.toLowerCase nm) nm v f) as S.
      rewrite E in S. destruct S as (_ & Sk & S).
      apply classify_field in C as [Hn Hres].
      intros k e Hk Hne. destruct (decide (k = JS.toLowerCase nm)) as [->|Hd].
      * rewrite Sk in Hk. injection Hk as <-.
        destruct (f !! JS.toLowerCase nm) as [e0|] eqn:E0; [|done].
        cbn [name]. by apply Inv.
      * rewrite S in Hk by done. by apply Inv.
Qed.

(** C9.  When [parseSecurityTxt] returns a field map: no field line has the
    reserved key (a field name has no underscore); the reserved entry, if
    there is one, is named [__unparsed] and holds the unparsed raw lines of
    the text, verbatim and in order, and there is none when the text has no
    unparsed line; every other entry is a parsed field, stored under the
    lower-cased form of its name. *)
Theorem parseSecurityTxt_reserved_bucket (text : string) (fields : gmap string FieldEntry) :
  parseSecurityTxt text = Some fields ->
  (forall line0 nm value,
     classify line0 = FieldLine nm value -> JS.toLowerCase nm <> "__unparsed") /\
  fields !! "__unparsed" =
    match unparsedLines text with
    | [] => None
    | ls => Some (mkField "__unparsed" ls)
    end /\
  (forall k e, fields !! k = Some e -> k <> "__unparsed" ->
     k = JS.toLowerCase (name e) /\ isFieldName (name e) = true).
Proof.
  unfold parseSecurityTxt, unparsedLines. intros H. split; [|split].
  - intros line0 nm v C. by apply classify_field in C as [_ ?].
  - rewrite (parseLines_bucket _ _ _ H), lookup_empty, foldl_bucketPush_None.
    by destruct (List.filter isUnparsed (JS.splitLines text)).
  - apply (parseLines_entries _ _ _ H). intros k e Hk.
    by rewrite lookup_empty in Hk.
Qed.

(** C9, witness: the line [__unparsed: x] is not a field line and goes to
    the reserved entry as it is. *)
Lemma parseSecurityTxt_reserved_bucket_witness :
  parseSecurityTxt reservedNameText = Some reservedNameFields /\
  classify "__unparsed: x" = UnparsedLine /\
  reservedNameFields !! "__unparsed" =
    match unparsedLines reservedNameText with
    | [] => None
    | ls => Some (mkField "__unparsed" ls)
    end /\
  unparsedLines reservedNameText = ["__unparsed: x"].
Proof.
  assert (H : parseSecurityTxt reservedNameText = Some reservedNameFields)
    by (vm_compute; reflexivity).
  split; [exact H|]. split; [vm_compute; reflexivity|].
  split; [|vm_compute; reflexivity].
  exact (proj1 (proj2 (parseSecurityTxt_reserved_bucket _ _ H))).
Defined.

(** The parser throws exactly when some field line has a name whose
    lower-cased form is a property of [Object.prototype]; among the names
    of the grammar that is [constructor]. *)
Lemma parseLines_throws lines (f : gmap string FieldEntry) :
  (forall k, k ∈ OBJECT_PROTOTYPE_KEYS -> f !! k = None) ->
  parseLines lines f = None <->
  exists line0 nm value,
    line0 ∈ lines /\ classify line0 = FieldLine nm value /\
    JS.toLowerCase nm ∈ OBJECT_PROTOTYPE_KEYS.
Proof.
  revert f. induction lines as [|line0 lines IH]; intros f Inv; simpl.
  - split; [discriminate|]. intros (l & ? & ? & Hin & _). by apply elem_of_nil in Hin.
  - rewrite parseLine_classify.
    assert (Hu : "__unparsed" ∉ OBJECT_PROTOTYPE_KEYS).
    { unfold OBJECT_PROTOTYPE_KEYS. rewrite !not_elem_of_cons.
      repeat split; try discriminate. apply not_elem_of_nil. }
    destruct (classify line0) as [| |nm v] eqn:C.
    + rewrite (IH f Inv). split.
      * intros (l & n & v & Hin & ?). exists l, n, v. split; [by right | done].
      * intros (l & n & v & Hin & Hc & Hp). apply elem_of_cons in Hin as [->|Hin].
        -- congruence.
        -- by exists l, n, v.
    + pose proof (pushValue_spec "__unparsed" "__unparsed" line0 f) as S.
      destruct (pushValue "__unparsed" "__unparsed" line0 f) as [f1|];
        [|by destruct S].
      destruct S as (_ & S1 & S2). rewrite (IH f1).
      * split.
        -- intros (l & n & v & Hin & ?). exists l, n, v. split; [by right | done].
        -- intros (l & n & v & Hin & Hc & Hp). apply elem_of_cons in Hin as [->|Hin].
           ++ congruence.
           ++ by exists l, n, v.
      * intros k Hk. rewrite S2; [by apply Inv | congruence].
    + pose proof (pushValue_spec (JS.toLowerCase nm) nm v f) as S.
      destruct (pushValue (JS.toLowerCase nm) nm v f) as [f1|].
      * destruct S as (S0 & S1 & S2).
        assert (Hnp : JS.toLowerCase nm ∉ OBJECT_PROTOTYPE_KEYS).
        { intros Hp. apply (S0 (Inv _ Hp)). exact Hp. }
        rewrite (IH f1).
        -- split.
           ++ intros (l & n & v' & Hin & ?). exists l, n, v'. split; [by right | done].
           ++ intros (l & n & v' & Hin & Hc & Hp).
              apply elem_of_cons in Hin as [->|Hin]; [|by exists l, n, v'].
              rewrite C in Hc. injection Hc as <- <-. contradiction.
        -- intros k Hk. rewrite S2; [by apply Inv | congruence].
      * destruct S as [_ Hp]. split; [|done]. intros _.
        exists line0, nm, v. split; [by left | done].
Qed.

Lemma parseSecurityTxt_throws (text : string) :
  parseSecurityTxt text = None <->
  exists line0 nm value,
    line0 ∈ JS.splitLines text /\ classify line0 = FieldLine nm value /\
    JS.toLowerCase nm ∈ OBJECT_PROTOTYPE_KEYS.
Proof. apply parseLines_throws. intros k _. apply lookup_empty. Qed.

Example parseSecurityTxt_constructor_throws :
  parseSecurityTxt constructorText = None.
Proof. vm_compute. reflexivity. Qed.

(** ** Prober *)

Section ProberFacts.
Context `{P : Platform}.

(** One request: the answer is recorded under the URL asked for, and the
    URL is the one more entry of the request log. *)
Lemma fetchWithMeta_spec (url : string) (w : World) :
  exists m w', fetchWithMeta url w = Some (m, w') /\
    meta_url m = url /\ requests w' = requests w ++ [url].
Proof.
  unfold fetchWithMeta, bind, fetch, ret.
  destruct (fetch_net url (net w)) as [[msg|res] n]; [by eauto|].
  destruct (res_ok res); [destruct (res_body res)|]; by eauto.
Qed.

(** The inner loop.  [news] are the attempts it adds. *)
Lemma tryCandidates_spec (host h : string) (cands : list string) :
  forall (atts : list Attempt) (w : World),
  exists r w' news,
    tryCandidates host h cands atts w = Some (r, w') /\
    requests w' = requests w ++ map att_url news /\
    match r with
    | inl res =>
        found res = true /\ attempts res = atts ++ news /\
        (exists pre a, news = pre ++ [a] /\ att_ok a = true /\ allFailed pre) /\
        map att_url news `prefix_of` cands
    | inr atts' =>
        atts' = atts ++ news /\ map att_url news = cands /\ allFailed news
    end.
Proof.
  induction cands as [|url rest IH]; intros atts w.
  - exists (inr atts), w, []. cbn. rewrite !app_nil_r.
    repeat split; constructor.
  - cbn [tryCandidates]. unfold bind at 1.
    destruct (fetchWithMeta_spec url w) as (m & w1 & -> & Hu & Hr).
    destruct (meta_ok m) eqn:Hok.
    + eexists _, w1, [attemptOf m]. split; [reflexivity|].
      cbn [map att_url attemptOf found attempts]. rewrite Hu.
      split; [done|]. split; [done|]. split; [done|]. split.
      * exists [], (attemptOf m). repeat split; [done | constructor].
      * apply prefix_cons, prefix_nil.
    + destruct (IH (atts ++ [attemptOf m]) w1) as (r & w' & news & -> & Hr' & Hres).
      exists r, w', (attemptOf m :: news). split; [reflexivity|].
      cbn [map att_url attemptOf]. rewrite Hu. split.
      { rewrite Hr', Hr, <- app_assoc. reflexivity. }
      destruct r as [res|atts'].
      * destruct Hres as (Hf & Ha & (pre & a & -> & Hoka & Hpre) & Hpf).
        split; [done|]. split; [by rewrite Ha, <- app_assoc|]. split.
        -- exists (attemptOf m :: pre), a. repeat split; [done|].
           constructor; done.
        -- by apply prefix_cons.
      * destruct Hres as (-> & Hm & Hall).
        split; [by rewrite <- app_assoc|]. split; [by rewrite Hm|].
        constructor; done.
Qed.

(** The outer loop: the candidates are those of the hosts, one host after
    the other. *)
Lemma tryHosts_spec (host : string) (endpoints : list string) (tryHttp : bool)
    (hosts : list string) :
  forall (atts : list Attempt) (w : World),
  exists r w' news,
    tryHosts host endpoints tryHttp hosts atts w = Some (r, w') /\
    requests w' = requests w ++ map att_url news /\
    let cands :=
      flat_map (fun h => buildCandidateUrlsForHost h endpoints tryHttp) hosts in
    match r with
    | inl res =>
        found res = true /\ attempts res = atts ++ news /\
        (exists pre a, news = pre ++ [a] /\ att_ok a = true /\ allFailed pre) /\
        map att_url news `prefix_of` cands
    | inr atts' =>
        atts' = atts ++ news /\ map att_url news = cands /\ allFailed news
    end.
Proof.
  induction hosts as [|h rest IH]; intros atts w.
  - exists (inr atts), w, []. cbn. rewrite !app_nil_r.
    repeat split; constructor.
  - cbn [tryHosts flat_map]. unfold bind at 1.
    destruct (tryCandidates_spec host h
                (buildCandidateUrlsForHost h endpoints tryHttp) atts w)
      as (r & w1 & news & -> & Hr & Hres).
    destruct r as [res|atts1].
    + exists (inl res), w1, news. split; [reflexivity|]. split; [done|].
      destruct Hres as (Hf & Ha & Hlast & Hpf).
      repeat split; try done. by apply prefix_app_r.
    + destruct Hres as (-> & Hm & Hall).
      destruct (IH (atts ++ news) w1) as (r & w' & news' & -> & Hr' & Hres').
      exists r, w', (news ++ news'). split; [reflexivity|].
      rewrite map_app. split; [by rewrite Hr', Hr, <- app_assoc|].
      cbv zeta in Hres' |- *. destruct r as [res|atts2].
      * destruct Hres' as (Hf & Ha & (pre & a & -> & Hoka & Hpre) & Hpf).
        split; [done|]. split; [by rewrite Ha, <- app_assoc|]. split.
        -- exists (news ++ pre), a. rewrite <- app_assoc.
           repeat split; [done|]. by apply Forall_app.
        -- rewrite Hm. by apply prefix_app.
      * destruct Hres' as (-> & Hm' & Hall').
        split; [by rewrite <- app_assoc|]. split; [by rewrite Hm, Hm'|].
        by apply Forall_app.
Qed.

End ProberFacts.

(** A probe cycle, for any behaviour of the network: the two loops run
    over [candidateUrls] and stop at the first success. *)
Lemma probeSecurityTxt_run `{P : Platform}
    (tabUrl : string) (u : URLRecord) (w : World) :
  URL_new tabUrl = Some u ->
  exists r w',
    probeSecurityTxt tabUrl w = Some (r, w') /\
    requests w' = requests w ++ map att_url (attempts r) /\
    ((found r = true /\
      (exists pre a, attempts r = pre ++ [a] /\ att_ok a = true /\ allFailed pre) /\
      map att_url (attempts r) `prefix_of` candidateUrls (settingsOf w) (hostname u))
     \/
     (found r = false /\
      map att_url (attempts r) = candidateUrls (settingsOf w) (hostname u) /\
      allFailed (attempts r))).
Proof.
  intros Hu. unfold probeSecurityTxt, getSettings, newURL, bind, get, ret.
  rewrite Hu.
  destruct (tryHosts_spec (hostname u) (endpointsOf (settingsOf w))
              (tryHttpFallback (settingsOf w)) (hostsToTry (hostname u)) [] w)
    as (r & w' & news & -> & Hr & Hres).
  cbv zeta in Hres. fold (candidateUrls (settingsOf w) (hostname u)) in Hres.
  destruct r as [res|atts].
  - destruct Hres as (Hf & Ha & Hlast & Hpf).
    cbn [app] in Ha. exists res, w'. rewrite Ha.
    split; [reflexivity|]. split; [done|]. by left.
  - destruct Hres as (-> & Hm & Hall). cbn [app] in *.
    eexists _, w'. split; [reflexivity|]. cbn [attempts found].
    split; [done|]. by right.
Qed.

(** C1.  For a tab URL that parses, [probeSecurityTxt] returns, and it has
    requested exactly the URLs of its attempts, in order.  Either it found
    the manifest: the attempts end in the one successful entry, every entry
    before it failed, and the URLs attempted are an initial part of the
    candidates (nothing after the success was tried); or it did not: the
    URLs attempted are all the candidates, once each and in order, and
    every attempt failed.  So [found] holds exactly when the last attempt
    is a successful one. *)
Theorem probeSecurityTxt_attempts `{P : Platform}
    (tabUrl : string) (u : URLRecord) (w : World) :
  URL_new tabUrl = Some u ->
  exists r w',
    probeSecurityTxt tabUrl w = Some (r, w') /\
    requests w' = requests w ++ map att_url (attempts r) /\
    ((found r = true /\
      (exists pre a, attempts r = pre ++ [a] /\ att_ok a = true /\ allFailed pre) /\
      map att_url (attempts r) `prefix_of` candidateUrls (settingsOf w) (hostname u))
     \/
     (found r = false /\
      map att_url (attempts r) = candidateUrls (settingsOf w) (hostname u) /\
      allFailed (attempts r))) /\
    (found r = true <-> exists a, last (attempts r) = Some a /\ att_ok a = true).
Proof.
  intros Hu.
  destruct (probeSecurityTxt_run tabUrl u w Hu) as (r & w' & Hrun & Hreq & Hcases).
  exists r, w'. split; [done|]. split; [done|]. split; [done|].
  destruct Hcases as [(Hf & (pre & a & Ha & Hok & Hpre) & _)|(Hf & _ & Hall)].
  - split; [|done]. intros _. exists a. by rewrite Ha, last_snoc.
  - split; [congruence|]. intros (a & Hl & Hok).
    apply last_Some_elem_of in Hl.
    unfold allFailed in Hall. rewrite Forall_forall in Hall.
    specialize (Hall a Hl). congruence.
Qed.

(** C1, witness: the tab [https://www.example.co.uk/index.html] in a fresh
    session of the reference platform. *)
Lemma probeSecurityTxt_attempts_witness :
  URL_new (Platform := Reference.platform) "https://www.example.co.uk/index.html"
    = Some (mkURL "https:" "www.example.co.uk") /\
  exists r w',
    probeSecurityTxt (P := Reference.platform)
      "https://www.example.co.uk/index.html" Reference.world0 = Some (r, w') /\
    requests w' = requests Reference.world0 ++ map att_url (attempts r) /\
    ((found r = true /\
      (exists pre a, attempts r = pre ++ [a] /\ att_ok a = true /\ allFailed pre) /\
      map att_url (attempts r) `prefix_of`
        candidateUrls (settingsOf Reference.world0) "www.example.co.uk")
     \/
     (found r = false /\
      map att_url (attempts r) =
        candidateUrls (settingsOf Reference.world0) "www.example.co.uk" /\
      allFailed (attempts r))) /\
    (found r = true <-> exists a, last (attempts r) = Some a /\ att_ok a = true).
Proof.
  assert (H : URL_new (Platform := Reference.platform)
                "https://www.example.co.uk/index.html"
              = Some (mkURL "https:" "www.example.co.uk"))
    by (vm_compute; reflexivity).
  split; [exact H|].
  exact (probeSecurityTxt_attempts (P := Reference.platform)
           "https://www.example.co.uk/index.html" _ Reference.world0 H).
Defined.

(** ** Registrable-domain fallback *)

Lemma hostsToTry_same (host : string) :
  guessRegistrableDomain host = host -> hostsToTry host = [host].
Proof.
  intros H. unfold hostsToTry. rewrite H. by rewrite bool_decide_eq_true_2.
Qed.

Lemma endpointsOf_no_extra (s : Settings) :
  extraEndpoints s = [] -> endpointsOf s = DEFAULT_ENDPOINTS.
Proof. intros H. unfold endpointsOf. rewrite H. reflexivity. Qed.

(** The result that the inner loop returns from inside names the host
    whose candidates it was running over. *)
Lemma tryCandidates_checkedHost `{P : Platform}
    (host h : string) (cands : list string) :
  forall (atts : list Attempt) (w w' : World) (res : ProbeResult),
    tryCandidates host h cands atts w = Some (inl res, w') ->
    checkedHost res = h /\
    checkedHostMode res = (if bool_decide (h = host) then ModeHost else ModeApex).
Proof.
  induction cands as [|url rest IH]; intros atts w w' res; cbn [tryCandidates].
  - discriminate.
  - unfold bind at 1.
    destruct (fetchWithMeta url w) as [[m w1]|]; [|discriminate].
    destruct (meta_ok m).
    + intros [= <- <-]. by split.
    + apply IH.
Qed.

(** A probe cycle for a host that differs from its registrable domain,
    for any behaviour of the network: the exact host first and in full,
    then the registrable domain. *)
Lemma probeSecurityTxt_fallback `{P : Platform}
    (tabUrl : string) (u : URLRecord) (w : World) :
  URL_new tabUrl = Some u ->
  guessRegistrableDomain (hostname u) <> hostname u ->
  exists r w',
    probeSecurityTxt tabUrl w = Some (r, w') /\
    requests w' = requests w ++ map att_url (attempts r) /\
    hostThenApex (hostname u) (guessRegistrableDomain (hostname u))
      (buildCandidateUrlsForHost (hostname u) (endpointsOf (settingsOf w))
         (tryHttpFallback (settingsOf w)))
      (buildCandidateUrlsForHost (guessRegistrableDomain (hostname u))
         (endpointsOf (settingsOf w)) (tryHttpFallback (settingsOf w)))
      r.
Proof.
  intros Hu Hne.
  unfold hostThenApex, probeSecurityTxt, getSettings, newURL, bind, get, ret.
  rewrite Hu. unfold hostsToTry.
  rewrite bool_decide_eq_false_2 by congruence.
  cbn [tryHosts]. unfold bind, ret.
  set (s := settingsOf w).
  set (host := hostname u) in *.
  set (apex := guessRegistrableDomain host) in *.
  destruct (tryCandidates_spec host host
              (buildCandidateUrlsForHost host (endpointsOf s) (tryHttpFallback s))
              [] w) as (r1 & w1 & news1 & E1 & Hr1 & Hres1).
  rewrite E1. destruct r1 as [res|atts1].
  - destruct Hres1 as (Hf & Ha & (pre & a & -> & Hok & Hpre) & Hpf).
    cbn [app] in Ha.
    destruct (tryCandidates_checkedHost _ _ _ _ _ _ _ E1) as [Hc Hm].
    rewrite bool_decide_eq_true_2 in Hm by done.
    exists res, w1. split; [reflexivity|]. rewrite Ha. split; [done|].
    left. split; [done|]. split; [done|]. split; [done|].
    by exists pre, a.
  - destruct Hres1 as (-> & Hm1 & Hall1). cbn [app] in *.
    destruct (tryCandidates_spec host apex
                (buildCandidateUrlsForHost apex (endpointsOf s) (tryHttpFallback s))
                news1 w1) as (r2 & w2 & news2 & E2 & Hr2 & Hres2).
    rewrite E2. destruct r2 as [res|atts2].
    + destruct Hres2 as (Hf & Ha & (pre & a & -> & Hok & Hpre) & Hpf).
      destruct (tryCandidates_checkedHost _ _ _ _ _ _ _ E2) as [Hc Hm].
      rewrite bool_decide_eq_false_2 in Hm by done.
      exists res, w2. split; [reflexivity|]. rewrite Ha, map_app. split.
      { by rewrite Hr2, Hr1, <- app_assoc. }
      right; left. split; [done|]. split; [done|]. split; [done|].
      exists news1, pre, a. by repeat split.
    + destruct Hres2 as (-> & Hm2 & Hall2).
      eexists _, w2. split; [reflexivity|]. cbn [attempts found].
      rewrite map_app. split.
      { by rewrite Hr2, Hr1, <- app_assoc. }
      right; right. split; [done|].
      exists news1, news2. by repeat split.
Qed.

(** A probe cycle for a host that is its own registrable domain: only the
    candidates of that host are requested, once each. *)
Lemma probeSecurityTxt_single_host `{P : Platform}
    (tabUrl : string) (u : URLRecord) (w : World) :
  URL_new tabUrl = Some u ->
  guessRegistrableDomain (hostname u) = hostname u ->
  exists r w',
    probeSecurityTxt tabUrl w = Some (r, w') /\
    requests w' = requests w ++ map att_url (attempts r) /\
    checkedHost r = hostname u /\ checkedHostMode r = ModeHost /\
    ((found r = true /\
      (exists pre a,
         attempts r = pre ++ [a] /\ att_ok a = true /\ allFailed pre) /\
      map att_url (attempts r) `prefix_of`
        buildCandidateUrlsForHost (hostname u) (endpointsOf (settingsOf w))
          (tryHttpFallback (settingsOf w)))
     \/
     (found r = false /\
      map att_url (attempts r) =
        buildCandidateUrlsForHost (hostname u) (endpointsOf (settingsOf w))
          (tryHttpFallback (settingsOf w)) /\
      allFailed (attempts r))).
Proof.
  intros Hu Hg. unfold probeSecurityTxt, getSettings, newURL, bind, get, ret.
  rewrite Hu, (hostsToTry_same _ Hg).
  cbn [tryHosts]. unfold bind, ret.
  set (s := settingsOf w).
  set (host := hostname u) in *.
  destruct (tryCandidates_spec host host
              (buildCandidateUrlsForHost host (endpointsOf s) (tryHttpFallback s))
              [] w) as (r1 & w1 & news1 & E1 & Hr1 & Hres1).
  rewrite E1. destruct r1 as [res|atts1].
  - destruct Hres1 as (Hf & Ha & Hlast & Hpf). cbn [app] in Ha.
    destruct (tryCandidates_checkedHost _ _ _ _ _ _ _ E1) as [Hc Hm].
    rewrite bool_decide_eq_true_2 in Hm by done.
    exists res, w1. split; [reflexivity|]. rewrite Ha.
    split; [done|]. split; [done|]. split; [done|]. by left.
  - destruct Hres1 as (-> & Hm1 & Hall1). cbn [app] in *.
    eexists _, w1. split; [reflexivity|].
    cbn [attempts found checkedHost checkedHostMode].
    split; [done|]. split; [done|]. split; [done|]. by right.
Qed.

(** C7.  The heuristic gives [example.co.uk] for [www.example.co.uk].  A
    probe cycle for a tab on [www.example.co.uk], when the user has added
    no endpoint, returns for any behaviour of the network and either value
    of the HTTP flag, and what it requested is what it recorded as
    attempts.  The URLs requested are an initial part of the list made of
    all the candidates of [www.example.co.uk] followed by all the
    candidates of [example.co.uk], and more precisely ([hostThenApex])
    one of three things happened: the manifest was found on
    [www.example.co.uk] and only candidates of that host were requested;
    or every candidate of [www.example.co.uk] was requested and failed,
    and then candidates of [example.co.uk] were requested up to the first
    success; or every candidate of [www.example.co.uk] and then every
    candidate of [example.co.uk] was requested and all failed.  With HTTPS
    only the whole list is [scenarioCandidates], and no candidate of
    [www.example.co.uk] is a candidate of [example.co.uk].  When the
    heuristic gives back the host name itself, the hosts to try are that
    host alone, and a probe cycle requests candidates of that host only,
    each at most once: all of them when the manifest is not found. *)
Theorem probe_exact_host_before_registrable_domain `{P : Platform} :
  guessRegistrableDomain "www.example.co.uk" = "example.co.uk" /\
  (forall (tabUrl : string) (u : URLRecord) (w : World),
     URL_new tabUrl = Some u ->
     hostname u = "www.example.co.uk" ->
     extraEndpoints (settingsOf w) = [] ->
     exists r w',
       probeSecurityTxt tabUrl w = Some (r, w') /\
       requests w' = requests w ++ map att_url (attempts r) /\
       map att_url (attempts r) `prefix_of`
         (buildCandidateUrlsForHost "www.example.co.uk" DEFAULT_ENDPOINTS
            (tryHttpFallback (settingsOf w)) ++
          buildCandidateUrlsForHost "example.co.uk" DEFAULT_ENDPOINTS
            (tryHttpFallback (settingsOf w))) /\
       hostThenApex "www.example.co.uk" "example.co.uk"
         (buildCandidateUrlsForHost "www.example.co.uk" DEFAULT_ENDPOINTS
            (tryHttpFallback (settingsOf w)))
         (buildCandidateUrlsForHost "example.co.uk" DEFAULT_ENDPOINTS
            (tryHttpFallback (settingsOf w)))
         r) /\
  buildCandidateUrlsForHost "www.example.co.uk" DEFAULT_ENDPOINTS false ++
    buildCandidateUrlsForHost "example.co.uk" DEFAULT_ENDPOINTS false
    = scenarioCandidates /\
  (forall tryHttp : bool,
     Forall
       (fun url =>
          url ∉ buildCandidateUrlsForHost "example.co.uk" DEFAULT_ENDPOINTS tryHttp)
       (buildCandidateUrlsForHost "www.example.co.uk" DEFAULT_ENDPOINTS tryHttp)) /\
  (forall host : string,
     guessRegistrableDomain host = host -> hostsToTry host = [host]) /\
  (forall (tabUrl : string) (u : URLRecord) (w : World),
     URL_new tabUrl = Some u ->
     guessRegistrableDomain (hostname u) = hostname u ->
     exists r w',
       probeSecurityTxt tabUrl w = Some (r, w') /\
       requests w' = requests w ++ map att_url (attempts r) /\
       checkedHost r = hostname u /\ checkedHostMode r = ModeHost /\
       ((found r = true /\
         (exists pre a,
            attempts r = pre ++ [a] /\ att_ok a = true /\ allFailed pre) /\
         map att_url (attempts r) `prefix_of`
           buildCandidateUrlsForHost (hostname u) (endpointsOf (settingsOf w))
             (tryHttpFallback (settingsOf w)))
        \/
        (found r = false /\
         map att_url (attempts r) =
           buildCandidateUrlsForHost (hostname u) (endpointsOf (settingsOf w))
             (tryHttpFallback (settingsOf w)) /\
         allFailed (attempts r)))).
Proof.
  split; [vm_compute; reflexivity|]. split; [|split; [|split; [|split]]].
  - intros tabUrl u w Hu Hh Hx.
    assert (Hne : guessRegistrableDomain (hostname u) <> hostname u).
    { rewrite Hh.
      change (guessRegistrableDomain "www.example.co.uk") with "example.co.uk".
      discriminate. }
    destruct (probeSecurityTxt_fallback tabUrl u w Hu Hne)
      as (r & w' & Hp & Hr & Hcases).
    rewrite Hh, (endpointsOf_no_extra _ Hx) in Hcases.
    change (guessRegistrableDomain "www.example.co.uk")
      with "example.co.uk" in Hcases.
    exists r, w'. split; [done|]. split; [done|]. split; [|exact Hcases].
    unfold hostThenApex in Hcases.
    destruct Hcases
      as [(_ & _ & _ & pre & a & -> & _ & _ & Hpf)
         |[(_ & _ & _ & first & pre & a & -> & Hm & _ & _ & _ & Hpf)
          |(_ & first & second & -> & Hm1 & Hm2 & _)]].
    + by apply prefix_app_r.
    + rewrite map_app, Hm. by apply prefix_app.
    + by rewrite map_app, Hm1, Hm2.
  - vm_compute. reflexivity.
  - intros []; apply (bool_decide_unpack _); vm_compute; exact I.
  - exact hostsToTry_same.
  - exact probeSecurityTxt_single_host.
Qed.

(** C7, witness: the tab [https://www.example.co.uk/index.html] in a fresh
    session of the reference platform, where the manifest is found on the
    registrable domain after the eight candidates of the exact host; and
    the tab [https://example.com/], whose host is its own registrable
    domain. *)
Lemma probe_exact_host_before_registrable_domain_witness :
  (exists r w',
     probeSecurityTxt (P := Reference.platform)
       "https://www.example.co.uk/index.html" Reference.world0 = Some (r, w') /\
     requests w' = requests Reference.world0 ++ map att_url (attempts r) /\
     map att_url (attempts r) `prefix_of`
       (buildCandidateUrlsForHost "www.example.co.uk" DEFAULT_ENDPOINTS
          (tryHttpFallback (settingsOf Reference.world0)) ++
        buildCandidateUrlsForHost "example.co.uk" DEFAULT_ENDPOINTS
          (tryHttpFallback (settingsOf Reference.world0))) /\
     hostThenApex "www.example.co.uk" "example.co.uk"
       (buildCandidateUrlsForHost "www.example.co.uk" DEFAULT_ENDPOINTS
          (tryHttpFallback (settingsOf Reference.world0)))
       (buildCandidateUrlsForHost "example.co.uk" DEFAULT_ENDPOINTS
          (tryHttpFallback (settingsOf Reference.world0)))
       r) /\
  guessRegistrableDomain "example.com" = "example.com" /\
  hostsToTry "example.com" = ["example.com"] /\
  (exists r w',
     probeSecurityTxt (P := Reference.platform)
       "https://example.com/" Reference.world0 = Some (r, w') /\
     requests w' = requests Reference.world0 ++ map att_url (attempts r) /\
     checkedHost r = "example.com" /\ checkedHostMode r = ModeHost /\
     ((found r = true /\
       (exists pre a,
          attempts r = pre ++ [a] /\ att_ok a = true /\ allFailed pre) /\
       map att_url (attempts r) `prefix_of`
         buildCandidateUrlsForHost "example.com"
           (endpointsOf (settingsOf Reference.world0))
           (tryHttpFallback (settingsOf Reference.world0)))
      \/
      (found r = false /\
       map att_url (attempts r) =
         buildCandidateUrlsForHost "example.com"
           (endpointsOf (settingsOf Reference.world0))
           (tryHttpFallback (settingsOf Reference.world0)) /\
       allFailed (attempts r)))).
Proof.
  destruct (probe_exact_host_before_registrable_domain (P := Reference.platform))
    as (_ & T2 & _ & _ & T5 & T6).
  assert (Hu : URL_new (Platform := Reference.platform)
                 "https://www.example.co.uk/index.html"
               = Some (mkURL "https:" "www.example.co.uk"))
    by (vm_compute; reflexivity).
  assert (Hv : URL_new (Platform := Reference.platform) "https://example.com/"
               = Some (mkURL "https:" "example.com"))
    by (vm_compute; reflexivity).
  assert (Hg : guessRegistrableDomain "example.com" = "example.com")
    by (vm_compute; reflexivity).
  split; [|split; [exact Hg | split; [exact (T5 _ Hg)|]]].
  - exact (T2 _ _ Reference.world0 Hu eq_refl eq_refl).
  - exact (T6 _ _ Reference.world0 Hv Hg).
Defined.

Example probe_scenario_requests :
  (fun o => match o with
            | Some (r, w') => Some (found r, checkedHost r, checkedHostMode r, requests w')
            | None => None
            end)
    (probeSecurityTxt (P := Reference.platform)
       "https://www.example.co.uk/index.html" Reference.world0)
  = Some (true, "example.co.uk", ModeApex, take 9 scenarioCandidates).
Proof. vm_compute. reflexivity. Qed.

Example probe_unreachable_host :
  (fun o => match o with
            | Some (r, w') =>
                Some (found r, foundUrl r, length (attempts r),
                      existsb att_ok (attempts r),
                      att_error <$> head (attempts r),
                      att_status <$> last (attempts r),
                      clock w' - clock Reference.world0)
            | None => None
            end)
    (probeSecurityTxt (P := Reference.platform)
       "https://down.example.org/login" Reference.world0)
  = Some (false, None, 16%nat, false, Some (Some "Failed to fetch"),
          Some (Some 404), 16 * 40).
Proof. vm_compute. reflexivity. Qed.

(** ** Tabs that are not probed *)

(** C8.  When the tab URL is missing or empty, or is not an http(s) URL,
    [checkTab] completes without a request (the request log and the
    network are as before), the tab's cache entry is the not-applicable
    result (not found, no attempts, the error text), stamped with the
    clock, and the tab's badge is the one of the state [no]; the other
    cache entries and the other tabs' badges are as before. *)
Theorem checkTab_not_applicable `{P : Platform}
    (tabId : Z) (tabUrl : option string) (w : World) :
  falsyUrl tabUrl = true \/ isHttpUrl (default EmptyString tabUrl) = false ->
  exists w',
    checkTab tabId tabUrl w = Some (tt, w') /\
    requests w' = requests w /\ net w' = net w /\
    session w' = <[cacheKey tabId := notApplicable (orNull tabUrl) (clock w)]> (session w) /\
    (exists pl, session w' !! cacheKey tabId = Some pl /\
       pl_found pl = false /\ pl_attempts pl = [] /\
       pl_error pl = Some "Not an http(s) URL") /\
    badgeText w' !! tabId = Some "NO" /\
    badgeColor w' !! tabId = Some "#b71c1c" /\
    (forall t, t <> tabId ->
       badgeText w' !! t = badgeText w !! t /\ badgeColor w' !! t = badgeColor w !! t).
Proof.
  intros H.
  assert (Hc : falsyUrl tabUrl || negb (isHttpUrl (default EmptyString tabUrl)) = true).
  { destruct H as [->| ->]; [reflexivity | apply orb_true_r]. }
  unfold checkTab. cbv zeta. rewrite Hc.
  eexists. split; [reflexivity|].
  cbn [requests net session badgeText badgeColor].
  split; [done|]. split; [done|]. split; [done|]. split.
  - eexists. split; [apply lookup_insert_eq|]. done.
  - split; [apply lookup_insert_eq|]. split; [apply lookup_insert_eq|].
    intros t Ht. by rewrite !lookup_insert_ne.
Qed.

(** C8, witness: the extensions page of the browser in tab 7. *)
Lemma checkTab_not_applicable_witness :
  isHttpUrl (P := Reference.platform) "chrome://extensions/" = false /\
  exists w',
    checkTab (P := Reference.platform) 7 (Some "chrome://extensions/") Reference.world0
      = Some (tt, w') /\
    requests w' = [] /\
    session w' !! "tabResult:7" =
      Some (notApplicable (Some "chrome://extensions/") year2026) /\
    badgeText w' !! 7 = Some "NO".
Proof.
  assert (H : isHttpUrl (P := Reference.platform) "chrome://extensions/" = false)
    by (vm_compute; reflexivity).
  split; [exact H|].
  destruct (checkTab_not_applicable (P := Reference.platform) 7
              (Some "chrome://extensions/") Reference.world0 (or_intror H))
    as (w' & Hrun & Hreq & _ & Hs & _ & Hb & _).
  exists w'. split; [exact Hrun|]. split; [exact Hreq|]. split; [|exact Hb].
  rewrite Hs. apply lookup_insert_eq.
Defined.

(** * Further properties *)

(** ** Endpoints and candidate URLs *)

(** A path that [normalizePath] returns is empty or starts with a slash,
    and [normalizePath] leaves it as it is. *)
Lemma normalizePath_fixed p :
  let q := normalizePath p in
  normalizePath q = q /\ (JS.truthy q = true -> JS.startsWith q "/" = true).
Proof.
  cbv zeta.
  destruct (normalizePath_cases p)
    as [[E N]|[(t & E & N)|(c & t & E & Hc & N)]]; rewrite N.
  - split; [reflexivity | discriminate].
  - split; [|intros _; by rewrite startsWith_slash].
    pose proof (trim_tail_fixed _ _ _ E) as Ht.
    unfold normalizePath. rewrite trim_fixed by done.
    cbn [JS.truthy negb]. by rewrite startsWith_slash.
  - split; [|intros _; by rewrite startsWith_slash].
    pose proof (trim_tail_fixed _ _ _ E) as Ht.
    destruct (trim_head p) as [E'|(c' & t' & E' & Hws)]; [congruence|].
    assert (c' = c) as -> by congruence.
    unfold normalizePath. rewrite trim_fixed; [reflexivity | done |].
    rewrite trimEnd_cons by done. by rewrite Ht.
Qed.

(** Normalizing a list of paths and dropping the empty results: every
    path that is left starts with a slash, and doing it again changes
    nothing. *)
Lemma normalized_list (l : list string) :
  let n := List.filter JS.truthy (map normalizePath l) in
  Forall (fun ep => JS.startsWith ep "/" = true) n /\
  List.filter JS.truthy (map normalizePath n) = n.
Proof.
  cbv zeta. induction l as [|p l [IH1 IH2]]; [split; [constructor | reflexivity]|].
  cbn [map List.filter]. destruct (normalizePath_fixed p) as [Hfix Hslash].
  destruct (JS.truthy (normalizePath p)) eqn:Ht; [|by split].
  split; [constructor; auto|].
  cbn [map List.filter]. rewrite Hfix, Ht, IH2. reflexivity.
Qed.

(** X1.  The endpoints of a probe cycle are the two defaults followed by
    the user's endpoints as [getSettings] returns them (the second
    normalization in [probeSecurityTxt] changes nothing), and every one of
    them starts with a slash. *)
Theorem endpointsOf_defaults_first `{P : Platform} (w : World) :
  endpointsOf (settingsOf w) = DEFAULT_ENDPOINTS ++ extraEndpoints (settingsOf w) /\
  Forall (fun ep => JS.startsWith ep "/" = true) (endpointsOf (settingsOf w)).
Proof.
  assert (E : endpointsOf (settingsOf w)
              = DEFAULT_ENDPOINTS ++ extraEndpoints (settingsOf w)).
  { unfold endpointsOf, settingsOf. cbn [extraEndpoints].
    rewrite map_app, List.filter_app.
    destruct (normalized_list
                (match sync_extraEndpoints w with Some l => l | None => [] end))
      as [_ ->].
    reflexivity. }
  split; [exact E|]. rewrite E. apply Forall_app. split.
  - repeat constructor.
  - unfold settingsOf. cbn [extraEndpoints]. apply normalized_list.
Qed.

Lemma filter_truthy_elem (x : string) (l : list string) :
  x ∈ List.filter JS.truthy l <-> x ∈ l /\ JS.truthy x = true.
Proof. rewrite !list_elem_of_In. apply filter_In. Qed.

(** X2.  Every candidate URL is [https://] or [http://], then the host,
    then a path that starts with a slash, and [http://] occurs only with
    the fallback setting; with the setting the HTTPS candidates come first
    and the HTTP candidates repeat them one for one. *)
Theorem buildCandidateUrlsForHost_shape
    (host : string) (endpoints : list string) (tryHttp : bool) :
  (forall url, url ∈ buildCandidateUrlsForHost host endpoints tryHttp ->
     exists scheme path,
       url = scheme +:+ host +:+ path /\ JS.startsWith path "/" = true /\
       (scheme = "https://" \/ (scheme = "http://" /\ tryHttp = true))) /\
  (exists paths,
     buildCandidateUrlsForHost host endpoints false
       = map (fun ep => "https://" +:+ host +:+ ep) paths /\
     buildCandidateUrlsForHost host endpoints true
       = map (fun ep => "https://" +:+ host +:+ ep) paths ++
         map (fun ep => "http://" +:+ host +:+ ep) paths).
Proof.
  unfold buildCandidateUrlsForHost.
  set (paths := List.filter JS.truthy
                  (map normalizePath (flat_map expandCaseVariantsForEndpoint endpoints))).
  assert (Hp : forall ep, ep ∈ paths -> JS.startsWith ep "/" = true).
  { intros ep Hin. apply filter_truthy_elem in Hin as [Hin Ht].
    apply list_elem_of_fmap in Hin as (q & -> & _).
    by apply normalizePath_fixed. }
  split; [|by exists paths].
  intros url Hin.
  assert (Hcases :
            url ∈ map (fun ep => "https://" +:+ host +:+ ep) paths \/
            (tryHttp = true /\
             url ∈ map (fun ep => "http://" +:+ host +:+ ep) paths)).
  { destruct tryHttp; cbn [negb] in Hin; [|by left].
    apply elem_of_app in Hin as [?|?]; [by left | by right]. }
  destruct Hcases as [H|[Hh H]];
    apply list_elem_of_fmap in H as (ep & -> & Hep).
  - exists "https://", ep. split; [done|]. split; [by apply Hp | by left].
  - exists "http://", ep. split; [done|]. split; [by apply Hp | by right].
Qed.

(** ** Strings: lengths, slices *)

Lemma string_app_cons (x : ascii) (a b : string) :
  String x a +:+ b = String x (a +:+ b).
Proof. reflexivity. Qed.

Lemma string_app_nil_l (b : string) : EmptyString +:+ b = b.
Proof. reflexivity. Qed.

Lemma string_app_assoc (a b c : string) : (a +:+ b) +:+ c = a +:+ (b +:+ c).
Proof.
  induction a as [|x a IH]; rewrite ?string_app_nil_l, ?string_app_cons;
    [reflexivity | by rewrite IH].
Qed.

Lemma string_app_nil_r (a : string) : a +:+ EmptyString = a.
Proof.
  induction a as [|x a IH]; rewrite ?string_app_nil_l, ?string_app_cons;
    [reflexivity | by rewrite IH].
Qed.

Lemma string_length_app (a b : string) :
  String.length (a +:+ b) = (String.length a + String.length b)%nat.
Proof.
  induction a as [|x a IH]; rewrite ?string_app_nil_l, ?string_app_cons;
    cbn [String.length Nat.add]; [reflexivity | by rewrite IH].
Qed.

Lemma substring_all (n : nat) (s : string) :
  (String.length s <= n)%nat -> String.substring 0 n s = s.
Proof.
  revert n. induction s as [|c s IH]; intros n H.
  - by destruct n.
  - destruct n as [|n]; simpl in *; [lia|]. rewrite IH by lia. reflexivity.
Qed.

Lemma substring_app_l (a b : string) :
  String.substring 0 (String.length a) (a +:+ b) = a.
Proof.
  induction a as [|x a IH];
    rewrite ?string_app_nil_l, ?string_app_cons; cbn [String.length String.substring].
  - by destruct b.
  - by rewrite IH.
Qed.

Lemma substring_app_r (n : nat) (a b : string) :
  String.substring (String.length a) n (a +:+ b) = String.substring 0 n b.
Proof.
  induction a as [|x a IH];
    rewrite ?string_app_nil_l, ?string_app_cons; cbn [String.length String.substring];
    [reflexivity | exact IH].
Qed.

Lemma dropLast_app (a b : string) :
  JS.dropLast (String.length b) (a +:+ b) = a.
Proof.
  unfold JS.dropLast. rewrite string_length_app.
  replace (String.length a + String.length b - String.length b)%nat
    with (String.length a) by lia.
  apply substring_app_l.
Qed.

Lemma takeLast_app (a b : string) :
  JS.takeLast (String.length b) (a +:+ b) = b.
Proof.
  unfold JS.takeLast. rewrite string_length_app.
  replace (String.length a + String.length b - String.length b)%nat
    with (String.length a) by lia.
  rewrite substring_app_r. by apply substring_all.
Qed.

Lemma takeLast_short (n : nat) (s : string) :
  (String.length s <= n)%nat -> JS.takeLast n s = s.
Proof.
  intros H. unfold JS.takeLast.
  replace (String.length s - n)%nat with 0%nat by lia. by apply substring_all.
Qed.

(** A string of at least [n] characters ends in a string of [n]. *)
Lemma string_split_last (n : nat) (s : string) :
  (n <= String.length s)%nat ->
  exists a b, s = a +:+ b /\ String.length b = n.
Proof.
  revert n. induction s as [|c s IH]; intros n H.
  - exists EmptyString, EmptyString. simpl in *. split; [reflexivity | lia].
  - destruct (decide (n = S (String.length s))) as [->|Hn].
    + by exists EmptyString, (String c s).
    + destruct (IH n) as (a & b & -> & Hb); [simpl in H; lia|].
      by exists (String c a), b.
Qed.

Lemma equalI_length (pat s : string) :
  JS.equalI pat s = true -> String.length s = String.length pat.
Proof.
  revert s. induction pat as [|a pat IH]; intros [|b s]; simpl; try discriminate.
  - reflexivity.
  - intros H. apply andb_true_iff in H as [_ H]. by rewrite (IH _ H).
Qed.

Lemma eqCharI_slash (c : ascii) : JS.eqCharI "/" c = true -> c = "/"%char.
Proof.
  destruct c as [[] [] [] [] [] [] [] []]; vm_compute; intros H;
    first [reflexivity | discriminate].
Qed.

(** ** Case variants of the manifest file name *)

Lemma replaceFileName_canonical (dir repl : string) :
  replaceFileName (dir +:+ "security.txt") repl = dir +:+ repl.
Proof.
  unfold replaceFileName.
  change 12%nat with (String.length "security.txt").
  by rewrite takeLast_app, dropLast_app.
Qed.

(** X3.  An endpoint whose last path segment is the file name in some
    letter case, [dir/file], is expanded into the four spellings
    [dir/security.txt], [dir/Security.txt], [dir/security.TXT] and
    [dir/SECURITY.TXT], in that order and whatever the case of [file] was;
    any other endpoint is kept alone. *)
Theorem expandCaseVariantsForEndpoint_shape (ep : string) :
  (exists dir file,
     ep = dir +:+ "/" +:+ file /\ JS.equalI "security.txt" file = true /\
     expandCaseVariantsForEndpoint ep =
       [dir +:+ "/security.txt"; dir +:+ "/Security.txt";
        dir +:+ "/security.TXT"; dir +:+ "/SECURITY.TXT"]) \/
  ((forall dir file,
      ep = dir +:+ "/" +:+ file -> JS.equalI "security.txt" file = false) /\
   expandCaseVariantsForEndpoint ep = [ep]).
Proof.
  unfold expandCaseVariantsForEndpoint.
  destruct (JS.equalI "/security.txt" (JS.takeLast 13 ep)) eqn:E; cbn [negb].
  - left.
    assert (Hlen : (13 <= String.length ep)%nat).
    { destruct (le_lt_dec 13 (String.length ep)) as [?|Hlt]; [done|].
      rewrite takeLast_short in E by lia.
      apply equalI_length in E. simpl in E. lia. }
    destruct (string_split_last 13 ep Hlen) as (dir & x & -> & Hx).
    rewrite <- Hx, takeLast_app in E.
    destruct x as [|c file]; [discriminate|].
    change (JS.equalI "/security.txt" (String c file))
      with (JS.eqCharI "/" c && JS.equalI "security.txt" file) in E.
    apply andb_true_iff in E as [Hc Hfile].
    apply eqCharI_slash in Hc as ->.
    exists dir, file. split; [reflexivity|]. split; [exact Hfile|].
    assert (Hf : String.length file = 12%nat) by (simpl in Hx; lia).
    assert (Hbase : replaceFileName (dir +:+ String "/" file) "security.txt"
                    = (dir +:+ "/") +:+ "security.txt").
    { unfold replaceFileName.
      replace (dir +:+ String "/" file) with ((dir +:+ "/") +:+ file)
        by (by rewrite string_app_assoc).
      rewrite <- Hf, takeLast_app, dropLast_app, Hfile. reflexivity. }
    rewrite Hbase, !replaceFileName_canonical, !string_app_assoc.
    rewrite !string_app_cons, !string_app_nil_l. cbn [JS.uniq].
    repeat (rewrite ?filter_cons, ?filter_nil;
            try (rewrite decide_True
                   by (intros H; apply (inj (String.append dir)) in H; discriminate))).
    reflexivity.
  - right. split; [|reflexivity]. intros dir file ->.
    destruct (JS.equalI "security.txt" file) eqn:Hfile; [|reflexivity].
    pose proof (equalI_length _ _ Hfile) as Hf. simpl in Hf.
    replace (dir +:+ "/" +:+ file) with (dir +:+ String "/" file) in E by reflexivity.
    change 13%nat with (S 12) in E. rewrite <- Hf in E.
    change (S (String.length file)) with (String.length (String "/" file)) in E.
    rewrite takeLast_app in E.
    change (JS.equalI "/security.txt" (String "/" file))
      with (JS.eqCharI "/" "/" && JS.equalI "security.txt" file) in E.
    rewrite Hfile in E. discriminate.
Qed.

(** ** Labels of a host name *)

Lemma rev_app_rev_app (x y z : string) :
  String.rev_app (String.rev_app x y) z = String.rev_app y (x +:+ z).
Proof.
  revert y z. induction x as [|c x IH]; intros y z; [reflexivity|].
  cbn [String.rev_app]. rewrite IH. reflexivity.
Qed.

Lemma rev_rev_app (x : string) : String.rev (String.rev_app x EmptyString) = x.
Proof.
  unfold String.rev. rewrite rev_app_rev_app. cbn [String.rev_app].
  apply string_app_nil_r.
Qed.

Lemma occurs_rev_app (c : ascii) (x y : string) :
  occurs c (String.rev_app x y) = occurs c x || occurs c y.
Proof.
  revert y. induction x as [|d x IH]; intros y; [reflexivity|].
  cbn [String.rev_app occurs]. rewrite IH. cbn [occurs].
  destruct (bool_decide (d = c)), (occurs c x), (occurs c y); reflexivity.
Qed.

(** Reading on over a piece without the separator only grows the piece
    in hand. *)
Lemma splitGo_app (sep : ascii) (x : string) :
  occurs sep x = false ->
  forall cur t,
    JS.splitGo sep cur (x +:+ t) = JS.splitGo sep (String.rev_app x cur) t.
Proof.
  induction x as [|c x IH]; intros Hx cur t; [reflexivity|].
  cbn [occurs] in Hx. apply orb_false_iff in Hx as [Hc Hx].
  rewrite string_app_cons. cbn [JS.splitGo String.rev_app]. rewrite Hc.
  by apply IH.
Qed.

(** Splitting gives pieces without the separator. *)
Lemma splitGo_pieces (sep : ascii) (s : string) :
  forall cur, occurs sep cur = false ->
    Forall (fun x => occurs sep x = false) (JS.splitGo sep cur s).
Proof.
  induction s as [|c s IH]; intros cur Hcur; cbn [JS.splitGo].
  - constructor; [|constructor]. unfold String.rev.
    by rewrite occurs_rev_app, Hcur.
  - destruct (bool_decide (c = sep)) eqn:Hc.
    + constructor; [|by apply IH]. unfold String.rev.
      by rewrite occurs_rev_app, Hcur.
    + apply IH. cbn [occurs]. by rewrite Hc, Hcur.
Qed.

(** Joining pieces that are free of the separator and splitting again
    gives the pieces back. *)
Lemma split_join (sep : ascii) (parts : list string) :
  parts <> [] ->
  Forall (fun x => occurs sep x = false) parts ->
  JS.split sep (JS.join (String sep EmptyString) parts) = parts.
Proof.
  induction parts as [|x parts IH]; [done|]. intros _ Hall.
  apply Forall_cons in Hall as [Hx Hall]. unfold JS.split in *.
  destruct parts as [|y parts].
  - cbn [JS.join].
    pose proof (splitGo_app sep x Hx EmptyString EmptyString) as E.
    rewrite string_app_nil_r in E. rewrite E.
    cbn [JS.splitGo]. by rewrite rev_rev_app.
  - change (JS.join (String sep EmptyString) (x :: y :: parts))
      with (x +:+ String sep EmptyString +:+ JS.join (String sep EmptyString) (y :: parts)).
    rewrite splitGo_app by done.
    rewrite string_app_cons, string_app_nil_l. cbn [JS.splitGo].
    rewrite bool_decide_eq_true_2 by done.
    rewrite rev_rev_app, IH by done. reflexivity.
Qed.

Lemma filter_all_true {A} (f : A -> bool) (l : list A) :
  Forall (fun x => f x = true) l -> List.filter f l = l.
Proof.
  induction 1 as [|x l Hx _ IH]; [reflexivity|].
  cbn [List.filter]. by rewrite Hx, IH.
Qed.

Lemma filter_truthy_Forall (l : list string) :
  Forall (fun x => JS.truthy x = true) (List.filter JS.truthy l).
Proof.
  apply Forall_forall. intros x Hx. by apply filter_truthy_elem in Hx as [_ ?].
Qed.

Lemma filter_truthy_keeps (Q : string -> Prop) (l : list string) :
  Forall Q l -> Forall Q (List.filter JS.truthy l).
Proof.
  intros H. apply Forall_forall. intros x Hx.
  apply filter_truthy_elem in Hx as [Hx _].
  rewrite Forall_forall in H. by apply H.
Qed.

(** The labels of a join of non-empty, dot-free labels. *)
Lemma labels_of_join (L : list string) :
  L <> [] ->
  Forall (fun x => JS.truthy x = true) L ->
  Forall (fun x => occurs "." x = false) L ->
  List.filter JS.truthy (JS.split "." (JS.join "." L)) = L.
Proof.
  intros Hne Ht Hd. rewrite split_join by done. by apply filter_all_true.
Qed.

(** X4.  The heuristic is idempotent: the registrable domain of a
    registrable domain is itself, so the fallback host has no fallback of
    its own. *)
Theorem guessRegistrableDomain_idempotent (hostname : string) :
  guessRegistrableDomain (guessRegistrableDomain hostname)
    = guessRegistrableDomain hostname /\
  hostsToTry (guessRegistrableDomain hostname) = [guessRegistrableDomain hostname].
Proof.
  assert (H : guessRegistrableDomain (guessRegistrableDomain hostname)
              = guessRegistrableDomain hostname);
    [|split; [exact H | by apply hostsToTry_same]].
  unfold guessRegistrableDomain at 2 3.
  set (parts := List.filter JS.truthy (JS.split "." hostname)).
  assert (Ht : Forall (fun x => JS.truthy x = true) parts)
    by apply filter_truthy_Forall.
  assert (Hd : Forall (fun x => occurs "." x = false) parts).
  { apply filter_truthy_keeps. by apply splitGo_pieces. }
  destruct (length parts <=? 2)%nat eqn:Hlen.
  - unfold guessRegistrableDomain. fold parts. by rewrite Hlen.
  - apply Nat.leb_gt in Hlen.
    assert (Hlast : forall k, (0 < k <= length parts)%nat ->
              length (JS.sliceLast k parts) = k /\
              List.filter JS.truthy (JS.split "." (JS.join "." (JS.sliceLast k parts)))
                = JS.sliceLast k parts).
    { intros k Hk. unfold JS.sliceLast.
      assert (Hl : length (drop (length parts - k) parts) = k)
        by (rewrite length_drop; lia).
      split; [exact Hl|]. apply labels_of_join.
      - intros E. rewrite E in Hl. simpl in Hl. lia.
      - by apply Forall_drop.
      - by apply Forall_drop. }
    destruct (bool_decide (JS.join "." (JS.sliceLast 2 parts) ∈ MULTIPART_SUFFIXES)
              && (3 <=? length parts)%nat) eqn:Hs.
    + destruct (Hlast 3%nat) as [Hl3 Hp3]; [lia|].
      unfold guessRegistrableDomain. rewrite Hp3, Hl3.
      change (3 <=? 2)%nat with false. cbv iota.
      assert (E2 : JS.sliceLast 2 (JS.sliceLast 3 parts) = JS.sliceLast 2 parts).
      { unfold JS.sliceLast. rewrite length_drop, drop_drop. f_equal. lia. }
      assert (E3 : JS.sliceLast 3 (JS.sliceLast 3 parts) = JS.sliceLast 3 parts).
      { unfold JS.sliceLast at 1. rewrite Hl3. reflexivity. }
      rewrite E2, E3. apply andb_true_iff in Hs as [Hs _]. by rewrite Hs.
    + destruct (Hlast 2%nat) as [Hl2 Hp2]; [lia|].
      unfold guessRegistrableDomain. by rewrite Hp2, Hl2.
Qed.

(** ** Requests and probe results *)

Ltac meta_facts :=
  repeat split; intros;
  repeat match goal with
         | H : exists _, _ |- _ => destruct H as (? & ? & ?)
         | H : is_Some None |- _ => by destruct H
         | H : _ /\ _ |- _ => destruct H
         end;
  simplify_eq; eauto; try done.

(** X5.  [fetchWithMeta] never rejects and sends one request.  [ok] is set
    exactly when there is a status and it lies in 200..299; without a
    status there is an error text and no success; a body text comes only
    with [ok] and without an error; and [ok] without a body text means
    that reading the body failed and left its error text. *)
Theorem fetchWithMeta_meta `{P : Platform} (url : string) (w : World) :
  exists m w',
    fetchWithMeta url w = Some (m, w') /\
    meta_url m = url /\
    requests w' = requests w ++ [url] /\
    (meta_ok m = true <->
     exists st, meta_status m = Some st /\ 200 <= st <= 299) /\
    (meta_status m = None -> is_Some (meta_error m) /\ meta_ok m = false) /\
    (is_Some (meta_text m) -> meta_ok m = true /\ meta_error m = None) /\
    (meta_ok m = true -> meta_text m = None -> is_Some (meta_error m)).
Proof.
  unfold fetchWithMeta, bind, fetch, ret.
  destruct (fetch_net url (net w)) as [[msg|res] n].
  - eexists _, _. split; [reflexivity|]. cbn. meta_facts.
  - unfold res_ok.
    destruct ((200 <=? res_status res) && (res_status res <=? 299)) eqn:Hok.
    + apply andb_true_iff in Hok as [H1 H2].
      apply Z.leb_le in H1. apply Z.leb_le in H2.
      destruct (res_body res) as [t|msg];
        (eexists _, _; split; [reflexivity|]); cbn; meta_facts.
    + eexists _, _. split; [reflexivity|]. cbn. meta_facts.
      apply andb_false_iff in Hok as [Hok|Hok]; apply Z.leb_gt in Hok; lia.
Qed.

(** A successful answer has a status in 200..299 and a body text or an
    error text. *)
Lemma fetchWithMeta_ok `{P : Platform} (url : string) (w w' : World) (m : Meta) :
  fetchWithMeta url w = Some (m, w') ->
  meta_url m = url /\
  (meta_ok m = true ->
   (exists st, meta_status m = Some st /\ 200 <= st <= 299) /\
   (is_Some (meta_text m) \/ is_Some (meta_error m))).
Proof.
  unfold fetchWithMeta, bind, fetch, ret.
  destruct (fetch_net url (net w)) as [[msg|res] n].
  - intros [= <- <-]. by split.
  - unfold res_ok.
    destruct ((200 <=? res_status res) && (res_status res <=? 299)) eqn:Hok.
    + apply andb_true_iff in Hok as [H1 H2].
      apply Z.leb_le in H1. apply Z.leb_le in H2.
      destruct (res_body res) as [t|msg]; intros [= <- <-]; cbn;
        (split; [done|]); intros _; (split; [by eauto|]); eauto.
    + intros [= <- <-]. by split.
Qed.

Section ProbeResultFacts.
Context `{P : Platform}.

Lemma tryCandidates_found (host h : string) (cands : list string) :
  forall (atts : list Attempt) (w w' : World) (res : ProbeResult),
    tryCandidates host h cands atts w = Some (inl res, w') ->
    exists url, url ∈ cands /\ describesSuccess host res h url.
Proof.
  induction cands as [|url rest IH]; intros atts w w' res; cbn [tryCandidates].
  - discriminate.
  - unfold bind at 1.
    destruct (fetchWithMeta url w) as [[m w1]|] eqn:Hf; [|discriminate].
    apply fetchWithMeta_ok in Hf as [Hu Hok].
    destruct (meta_ok m) eqn:Hm.
    + intros [= <- <-]. exists url. split; [by left|].
      destruct (Hok eq_refl) as [Hst Htext].
      exists (attemptOf m). cbn. rewrite last_snoc, Hu.
      repeat split; try done.
    + intros H. destruct (IH _ _ _ _ H) as (url' & Hin & Hd).
      exists url'. split; [by right | done].
Qed.

Lemma tryHosts_found (host : string) (endpoints : list string) (tryHttp : bool)
    (hosts : list string) :
  forall (atts : list Attempt) (w w' : World) (res : ProbeResult),
    tryHosts host endpoints tryHttp hosts atts w = Some (inl res, w') ->
    exists h url,
      h ∈ hosts /\ url ∈ buildCandidateUrlsForHost h endpoints tryHttp /\
      describesSuccess host res h url.
Proof.
  induction hosts as [|h rest IH]; intros atts w w' res; cbn [tryHosts].
  - discriminate.
  - unfold bind at 1.
    destruct (tryCandidates host h (buildCandidateUrlsForHost h endpoints tryHttp)
                atts w) as [[[res1|atts1] w1]|] eqn:Ht; [| |discriminate].
    + intros [= <- <-]. apply tryCandidates_found in Ht as (url & Hin & Hd).
      exists h, url. split; [by left | done].
    + intros H. destruct (IH _ _ _ _ H) as (h' & url & Hh & Hin & Hd).
      exists h', url. split; [by right | done].
Qed.

End ProbeResultFacts.

(** X6.  The result of a probe cycle is consistent with its attempts.
    When the manifest was found, the found URL, the status and the content
    type are those of the last attempt, the status lies in 200..299, the
    URL is a candidate of the checked host, the checked host is one of the
    hosts tried, the mode says apex exactly when it is not the exact host,
    and there is a body text unless reading the body failed.  When it was
    not found, every result field is null and the checked host is the
    exact host. *)
Theorem probeSecurityTxt_result `{P : Platform}
    (tabUrl : string) (u : URLRecord) (w w' : World) (r : ProbeResult) :
  URL_new tabUrl = Some u ->
  probeSecurityTxt tabUrl w = Some (r, w') ->
  (found r = true ->
   exists url,
     describesSuccess (hostname u) r (checkedHost r) url /\
     checkedHost r ∈ hostsToTry (hostname u) /\
     url ∈ buildCandidateUrlsForHost (checkedHost r) (endpointsOf (settingsOf w))
             (tryHttpFallback (settingsOf w)) /\
     (checkedHostMode r = ModeHost <-> checkedHost r = hostname u)) /\
  (found r = false ->
   foundUrl r = None /\ status r = None /\ contentType r = None /\
   text r = None /\ checkedHost r = hostname u /\ checkedHostMode r = ModeHost).
Proof.
  intros Hu. unfold probeSecurityTxt, getSettings, newURL, bind, get, ret.
  rewrite Hu.
  destruct (tryHosts (hostname u) (endpointsOf (settingsOf w))
              (tryHttpFallback (settingsOf w)) (hostsToTry (hostname u)) [] w)
    as [[[res|atts] w1]|] eqn:Ht; [| |discriminate]; intros [= <- <-].
  - destruct (tryHosts_found _ _ _ _ _ _ _ _ Ht) as (h & url & Hh & Hin & Hd).
    assert (Hc : checkedHost res = h).
    { by destruct Hd as (a & _ & _ & _ & _ & _ & _ & _ & _ & ? & _). }
    split.
    + intros _. exists url. rewrite Hc. split; [done|]. split; [done|].
      split; [done|].
      destruct Hd as (a & _ & _ & _ & _ & _ & _ & _ & _ & _ & ->).
      case_bool_decide; split; congruence.
    + destruct Hd as (a & Hl & _ & Hok & _). intros Hf.
      assert (found res = true); [|congruence].
      destruct (tryHosts_spec (hostname u) (endpointsOf (settingsOf w))
                  (tryHttpFallback (settingsOf w)) (hostsToTry (hostname u)) [] w)
        as (r' & w2 & news & Hrun & _ & Hres).
      rewrite Ht in Hrun. injection Hrun as <- <-. by destruct Hres.
  - cbn. split; [discriminate | done].
Qed.

(** X6, witness: the manifest found on the registrable domain in the
    scenario of the reference platform. *)
Lemma probeSecurityTxt_result_witness :
  probeSecurityTxt (P := Reference.platform)
    "https://www.example.co.uk/index.html" Reference.world0
    = Some (scenarioResult, scenarioWorld) /\
  found scenarioResult = true /\
  checkedHost scenarioResult = "example.co.uk" /\
  (checkedHostMode scenarioResult = ModeHost <->
   checkedHost scenarioResult = "www.example.co.uk") /\
  exists url,
    describesSuccess "www.example.co.uk" scenarioResult
      (checkedHost scenarioResult) url.
Proof.
  assert (Hu : URL_new (Platform := Reference.platform)
                 "https://www.example.co.uk/index.html"
               = Some (mkURL "https:" "www.example.co.uk"))
    by reflexivity.
  assert (E : probeSecurityTxt (P := Reference.platform)
                "https://www.example.co.uk/index.html" Reference.world0
              = Some (scenarioResult, scenarioWorld))
    by reflexivity.
  assert (Hf : found scenarioResult = true) by reflexivity.
  destruct (probeSecurityTxt_result (P := Reference.platform) _ _ _ _ _ Hu E)
    as [T _].
  destruct (T Hf) as (url & Hd & _ & _ & Hm).
  split; [exact E|]. split; [exact Hf|]. split; [reflexivity|].
  split; [exact Hm|]. exists url. exact Hd.
Defined.

(** ** Frames: what requests leave alone *)

Section Frames.
Context `{P : Platform}.

Lemma fetchWithMeta_frame (url : string) (w w' : World) (m : Meta) :
  fetchWithMeta url w = Some (m, w') -> sameStore w w'.
Proof.
  unfold fetchWithMeta, bind, fetch, ret, sameStore.
  destruct (fetch_net url (net w)) as [[msg|res] n].
  - by intros [= <- <-].
  - destruct (res_ok res); [destruct (res_body res)|]; by intros [= <- <-].
Qed.

Lemma sameStore_trans (w1 w2 w3 : World) :
  sameStore w1 w2 -> sameStore w2 w3 -> sameStore w1 w3.
Proof. unfold sameStore. intuition congruence. Qed.

Lemma tryCandidates_frame (host h : string) (cands : list string) :
  forall atts (w w' : World) r,
    tryCandidates host h cands atts w = Some (r, w') -> sameStore w w'.
Proof.
  induction cands as [|url rest IH]; intros atts w w' r; cbn [tryCandidates].
  - intros [= <- <-]. by unfold sameStore.
  - unfold bind at 1.
    destruct (fetchWithMeta url w) as [[m w1]|] eqn:Hf; [|discriminate].
    apply fetchWithMeta_frame in Hf.
    destruct (meta_ok m).
    + by intros [= <- <-].
    + intros H. apply IH in H. by eapply sameStore_trans.
Qed.

Lemma tryHosts_frame (host : string) (endpoints : list string) (tryHttp : bool)
    (hosts : list string) :
  forall atts (w w' : World) r,
    tryHosts host endpoints tryHttp hosts atts w = Some (r, w') -> sameStore w w'.
Proof.
  induction hosts as [|h rest IH]; intros atts w w' r; cbn [tryHosts].
  - intros [= <- <-]. by unfold sameStore.
  - unfold bind at 1.
    destruct (tryCandidates host h (buildCandidateUrlsForHost h endpoints tryHttp)
                atts w) as [[[res1|atts1] w1]|] eqn:Ht; [| |discriminate];
      apply tryCandidates_frame in Ht.
    + by intros [= <- <-].
    + intros H. apply IH in H. by eapply sameStore_trans.
Qed.

Lemma probeSecurityTxt_frame (tabUrl : string) (w w' : World) (r : ProbeResult) :
  probeSecurityTxt tabUrl w = Some (r, w') -> sameStore w w'.
Proof.
  unfold probeSecurityTxt, getSettings, newURL, bind, get, ret.
  destruct (URL_new tabUrl) as [u|]; [|discriminate].
  destruct (tryHosts (hostname u) (endpointsOf (settingsOf w))
              (tryHttpFallback (settingsOf w)) (hostsToTry (hostname u)) [] w)
    as [[[res|atts] w1]|] eqn:Ht; [| |discriminate];
    apply tryHosts_frame in Ht; by intros [= <- <-].
Qed.

End Frames.

(** ** The tab cache, the badge and the messages *)

(** Different tabs have different cache keys. *)
Lemma cacheKey_inj (a b : Z) : cacheKey a = cacheKey b -> a = b.
Proof.
  unfold cacheKey. intros H.
  apply (inj (String.append TAB_CACHE_KEY_PREFIX)) in H.
  by apply (inj pretty) in H.
Qed.

(** X7.  What [cacheTabResult] stores for a tab is what
    [getCachedTabResult] returns for it, reading changes nothing, and the
    entries of all other tabs stay as they were; a tab without an entry
    reads as null. *)
Theorem cacheTabResult_round_trip `{P : Platform}
    (tabId : Z) (payload : Payload) (w : World) :
  exists w',
    cacheTabResult tabId payload w = Some (tt, w') /\
    getCachedTabResult tabId w' = Some (Some payload, w') /\
    (forall t, t <> tabId ->
       getCachedTabResult t w' = Some (session w !! cacheKey t, w')) /\
    (forall t, session w !! cacheKey t = None ->
       getCachedTabResult t w = Some (None, w)).
Proof.
  eexists. split; [reflexivity|].
  unfold getCachedTabResult, bind, get, ret. cbn [session].
  split; [by rewrite lookup_insert_eq|]. split.
  - intros t Ht. rewrite lookup_insert_ne; [reflexivity|].
    intros E. by apply cacheKey_inj in E.
  - intros t Ht. by rewrite Ht.
Qed.

Section CheckTabFacts.
Context `{P : Platform}.

Lemma isHttpUrl_parses (url : string) :
  isHttpUrl url = true -> exists u, URL_new url = Some u.
Proof. unfold isHttpUrl. destruct (URL_new url); [by eauto | discriminate]. Qed.

(** One run of [checkTab], for any tab URL. *)
Lemma checkTab_run (tabId : Z) (tabUrl : option string) (w : World) :
  exists w' pl,
    checkTab tabId tabUrl w = Some (tt, w') /\
    session w' = <[cacheKey tabId := pl]> (session w) /\
    pl_tabUrl pl = orNull tabUrl /\
    pl_checkedAt pl = clock w' /\
    requests w' = requests w ++ map att_url (pl_attempts pl) /\
    badgeText w' = <[tabId := badgeTextOf pl]> (<[tabId := "?"]> (badgeText w)) /\
    (forall t, t <> tabId -> badgeColor w' !! t = badgeColor w !! t) /\
    sync_extraEndpoints w' = sync_extraEndpoints w /\
    sync_tryHttpFallback w' = sync_tryHttpFallback w /\
    (pl_found pl = true -> falsyUrl tabUrl = false /\ isHttpUrl (default EmptyString tabUrl) = true).
Proof.
  unfold checkTab. cbv zeta.
  destruct (falsyUrl tabUrl || negb (isHttpUrl (default EmptyString tabUrl))) eqn:Hc.
  - eexists _, _. split; [reflexivity|]. split; [reflexivity|].
    cbn [session pl_tabUrl pl_checkedAt requests pl_attempts badgeText badgeColor
         sync_extraEndpoints sync_tryHttpFallback pl_found map].
    rewrite app_nil_r. repeat split; try done.
    intros t Ht. by rewrite !lookup_insert_ne.
  - apply orb_false_iff in Hc as [Hf Hh]. apply negb_false_iff in Hh.
    destruct tabUrl as [url|]; [|discriminate].
    change (default EmptyString (Some url)) with url in *.
    cbn [falsyUrl] in Hf. apply negb_false_iff in Hf.
    destruct (isHttpUrl_parses url Hh) as [u Hu].
    destruct (probeSecurityTxt_run url u
                (mkWorld _ (net w) (requests w) (sync_extraEndpoints w)
                   (sync_tryHttpFallback w) (session w)
                   (<[tabId := "?"]> (badgeText w))
                   (<[tabId := "#616161"]> (badgeColor w))) Hu)
      as (r & w1 & Hrun & Hreq & _).
    assert (Hkeep : session w1 = session w /\
                    badgeText w1 = <[tabId := "?"]> (badgeText w) /\
                    badgeColor w1 = <[tabId := "#616161"]> (badgeColor w) /\
                    sync_extraEndpoints w1 = sync_extraEndpoints w /\
                    sync_tryHttpFallback w1 = sync_tryHttpFallback w).
    { exact (probeSecurityTxt_frame _ _ _ _ Hrun). }
    destruct Hkeep as (Hs & Hbt & Hbc & Hx & Hy).
    unfold bind at 1. unfold setBadge at 1. unfold bind at 1.
    unfold setBadgeText at 1, setBadgeBackgroundColor at 1, modify.
    cbn [net requests sync_extraEndpoints sync_tryHttpFallback session badgeText
         badgeColor].
    unfold bind at 1. rewrite Hrun.
    exists (mkWorld _ (net w1) (requests w1) (sync_extraEndpoints w1)
              (sync_tryHttpFallback w1)
              (<[cacheKey tabId :=
                   mkPayload (Some url) (clock w1) (found r) (foundUrl r) (status r)
                     (contentType r) (text r) (attempts r) None
                     (Some (checkedHost r)) (Some (checkedHostMode r))]> (session w1))
              (<[tabId := badgeTextOf
                   (mkPayload (Some url) (clock w1) (found r) (foundUrl r) (status r)
                      (contentType r) (text r) (attempts r) None
                      (Some (checkedHost r)) (Some (checkedHostMode r)))]>
                 (badgeText w1))
              (<[tabId := badgeColorOf
                   (mkPayload (Some url) (clock w1) (found r) (foundUrl r) (status r)
                      (contentType r) (text r) (attempts r) None
                      (Some (checkedHost r)) (Some (checkedHostMode r)))]>
                 (badgeColor w1))).
    eexists. split.
    { unfold badgeTextOf, badgeColorOf. cbn [pl_found pl_text].
      destruct (found r); [destruct (quickLintState (text r))|]; reflexivity. }
    cbn [session]. rewrite Hs. split; [reflexivity|].
    cbn [session pl_tabUrl pl_checkedAt requests pl_attempts badgeText badgeColor
         sync_extraEndpoints sync_tryHttpFallback pl_found net clock].
    rewrite Hbt, Hbc, Hx, Hy, Hreq. cbn [orNull]. rewrite Hf.
    repeat split; try done.
    + intros t Ht. by rewrite !lookup_insert_ne.
    + cbn [falsyUrl]. by rewrite Hf.
Qed.

End CheckTabFacts.

(** X8.  [checkTab] completes for every tab URL: the URL constructor in
    [probeSecurityTxt] cannot throw, since [isHttpUrl] has accepted the same
    string.  Afterwards the tab has a cache entry for the URL given, stamped
    with the clock, whose attempts are exactly the requests made; the badge
    is the one that goes with the entry, [NO] exactly when nothing was
    found; and the cache entries and badges of all other tabs are as
    before. *)
Theorem checkTab_cache_and_badge `{P : Platform}
    (tabId : Z) (tabUrl : option string) (w : World) :
  exists w' pl,
    checkTab tabId tabUrl w = Some (tt, w') /\
    session w' !! cacheKey tabId = Some pl /\
    pl_tabUrl pl = orNull tabUrl /\
    pl_checkedAt pl = clock w' /\
    requests w' = requests w ++ map att_url (pl_attempts pl) /\
    badgeText w' !! tabId = Some (badgeTextOf pl) /\
    (badgeText w' !! tabId = Some "NO" <-> pl_found pl = false) /\
    (forall t, t <> tabId ->
       session w' !! cacheKey t = session w !! cacheKey t /\
       badgeText w' !! t = badgeText w !! t /\
       badgeColor w' !! t = badgeColor w !! t).
Proof.
  destruct (checkTab_run tabId tabUrl w)
    as (w' & pl & Hrun & Hs & Hu & Hat & Hreq & Hbt & Hbc & _).
  exists w', pl. rewrite Hs, Hbt, !lookup_insert_eq.
  repeat split; try done.
  - intros [= H]. unfold badgeTextOf in H.
    destruct (pl_found pl); [|reflexivity].
    destruct (quickLintState (pl_text pl)); discriminate.
  - intros H. unfold badgeTextOf. by rewrite H.
  - rewrite lookup_insert_ne; [reflexivity|].
    intros E. by apply cacheKey_inj in E.
  - by rewrite !lookup_insert_ne.
  - by apply Hbc.
Qed.

(** X9.  The message listener.  A forced recheck of a tab that has a URL
    runs [checkTab] and replies with the entry it has just stored, which is
    never null and is for that URL; for a tab without a URL it replies with
    the entry that was there and changes nothing.  Reading a result and any
    other message change nothing either, and another message is answered
    with the error text. *)
Theorem onMessage_replies `{P : Platform}
    (tabsGet : Z -> option (option string)) (tabId : Z) (w : World) :
  (forall url, tabsGet tabId = Some url -> falsyUrl url = false ->
     exists w' pl,
       onMessage tabsGet (FORCE_RECHECK tabId) w = Some (ReplyResult (Some pl), w') /\
       checkTab tabId url w = Some (tt, w') /\
       session w' !! cacheKey tabId = Some pl /\
       pl_tabUrl pl = url /\ pl_checkedAt pl = clock w') /\
  (forall url, tabsGet tabId = Some url -> falsyUrl url = true ->
     onMessage tabsGet (FORCE_RECHECK tabId) w
       = Some (ReplyResult (session w !! cacheKey tabId), w)) /\
  (tabsGet tabId = None -> onMessage tabsGet (FORCE_RECHECK tabId) w = None) /\
  onMessage tabsGet (GET_TAB_RESULT tabId) w
    = Some (ReplyResult (session w !! cacheKey tabId), w) /\
  onMessage tabsGet OtherMessage w = Some (ReplyError "Unknown message", w).
Proof.
  split; [|split; [|split; [|split]]]; try reflexivity.
  - intros url Ht Hf. cbn [onMessage]. rewrite Ht, Hf. cbn [negb].
    destruct (checkTab_run tabId url w)
      as (w' & pl & Hrun & Hs & Hu & Hat & _).
    exists w', pl. unfold bind at 1. rewrite Hrun.
    unfold getCachedTabResult, bind, get, ret.
    rewrite Hs, lookup_insert_eq. repeat split; try done.
    rewrite Hu. destruct url as [s|]; [|discriminate].
    cbn [falsyUrl] in Hf. apply negb_false_iff in Hf. cbn [orNull]. by rewrite Hf.
  - intros url Ht Hf. cbn [onMessage]. rewrite Ht, Hf. reflexivity.
  - intros Ht. cbn [onMessage]. by rewrite Ht.
Qed.

(** ** The badge's quick check *)

Lemma prefixI_iff (pat s : string) :
  JS.prefixI pat s = true <->
  exists a b, s = a +:+ b /\ JS.equalI pat a = true.
Proof.
  revert s. induction pat as [|p pat IH]; intros s.
  - split; [|reflexivity]. intros _. by exists EmptyString, s.
  - destruct s as [|c s].
    + split; [discriminate|]. intros ([|? ?] & b & Hs & He); discriminate.
    + change (JS.prefixI (String p pat) (String c s))
        with (JS.eqCharI p c && JS.prefixI pat s).
      rewrite andb_true_iff, IH. split.
      * intros (Hc & a & b & -> & He). exists (String c a), b.
        split; [reflexivity|].
        change (JS.eqCharI p c && JS.equalI pat a = true). by rewrite Hc, He.
      * intros ([|c' a] & b & Hs & He); [discriminate|].
        rewrite string_app_cons in Hs. injection Hs as -> ->.
        change (JS.eqCharI p c' && JS.equalI pat a = true) in He.
        apply andb_true_iff in He as [Hc He]. split; [done|]. by exists a, b.
Qed.

Lemma skipSpaceThenColon_iff (s : string) :
  skipSpaceThenColon s = true <->
  exists ws rest, s = ws +:+ ":" +:+ rest /\ allChars JS.isWhiteSpace ws = true.
Proof.
  induction s as [|c s IH]; cbn [skipSpaceThenColon].
  - split; [discriminate|]. intros ([|? ?] & rest & Hs & _); discriminate.
  - case_bool_decide as Hc.
    + subst c. split; [|reflexivity]. intros _. by exists EmptyString, s.
    + destruct (JS.isWhiteSpace c) eqn:Hw.
      * rewrite IH. split.
        -- intros (ws & rest & -> & Hws). exists (String c ws), rest.
           split; [reflexivity|]. cbn [allChars]. by rewrite Hw, Hws.
        -- intros ([|c' ws] & rest & Hs & Hws).
           ++ rewrite string_app_nil_l, string_app_cons in Hs. congruence.
           ++ rewrite string_app_cons in Hs. injection Hs as -> ->.
              cbn [allChars] in Hws. apply andb_true_iff in Hws as [_ Hws].
              by exists ws, rest.
      * split; [discriminate|]. intros ([|c' ws] & rest & Hs & Hws).
        -- rewrite string_app_nil_l, string_app_cons in Hs. congruence.
        -- rewrite string_app_cons in Hs. injection Hs as -> ->.
           cbn [allChars] in Hws. rewrite Hw in Hws. discriminate.
Qed.

Lemma contactHere_iff (s : string) :
  contactHere s = true <->
  exists word ws rest,
    s = word +:+ ws +:+ ":" +:+ rest /\
    JS.equalI "contact" word = true /\ allChars JS.isWhiteSpace ws = true.
Proof.
  unfold contactHere. rewrite andb_true_iff, prefixI_iff. split.
  - intros [(word & x & -> & Hw) Hx].
    pose proof (equalI_length _ _ Hw) as Hl. cbn [String.length] in Hl.
    rewrite string_length_app, Hl in Hx.
    replace (7 + String.length x - 7)%nat with (String.length x) in Hx by lia.
    rewrite <- Hl, substring_app_r, substring_all in Hx by lia.
    apply skipSpaceThenColon_iff in Hx as (ws & rest & -> & Hws).
    by exists word, ws, rest.
  - intros (word & ws & rest & -> & Hw & Hws).
    split; [by exists word, (ws +:+ ":" +:+ rest)|].
    pose proof (equalI_length _ _ Hw) as Hl. cbn [String.length] in Hl.
    rewrite string_length_app, Hl.
    replace (7 + String.length (ws +:+ ":" +:+ rest) - 7)%nat
      with (String.length (ws +:+ ":" +:+ rest)) by lia.
    rewrite <- Hl, substring_app_r, substring_all by lia.
    apply skipSpaceThenColon_iff. by exists ws, rest.
Qed.

Lemma hasContactLine_iff (s : string) :
  forall b,
    hasContactLine b s = true <->
    (b = true /\ contactHere s = true) \/
    (exists pre c post,
       s = pre +:+ String c post /\ JS.isLineTerminator c = true /\
       contactHere post = true).
Proof.
  induction s as [|c s IH]; intros b.
  - change (hasContactLine b EmptyString)
      with (b && contactHere EmptyString || false).
    rewrite orb_false_r, andb_true_iff. split; [by left|].
    intros [?|([|? ?] & ? & ? & ? & _)]; [done | discriminate..].
  - change (hasContactLine b (String c s))
      with (b && contactHere (String c s)
            || hasContactLine (JS.isLineTerminator c) s).
    rewrite orb_true_iff, andb_true_iff, IH. split.
    + intros [?|[[Hc Hs]|(pre & d & post & -> & Hd & Hp)]]; [by left | |].
      * right. by exists EmptyString, c, s.
      * right. by exists (String c pre), d, post.
    + intros [?|([|c' pre] & d & post & Hs & Hd & Hp)]; [by left | |].
      * rewrite string_app_nil_l in Hs. injection Hs as -> ->.
        right. left. done.
      * rewrite string_app_cons in Hs. injection Hs as -> ->.
        right. right. by exists pre, d, post.
Qed.

(** X10.  The badge's quick check says ok exactly when the text has a
    Contact line in the sense of [hasContactAt]; a missing or empty text,
    and any text without such a line, gives warn. *)
Theorem quickLintState_ok_iff (t : option string) :
  (quickLintState t = BadgeOk <-> exists s, t = Some s /\ hasContactAt s) /\
  (quickLintState t <> BadgeOk -> quickLintState t = BadgeWarn).
Proof.
  split.
  - unfold quickLintState, hasContactAt. destruct t as [s|].
    + assert (Hiff : hasContactLine true s = true <->
                exists before word ws rest,
                  s = before +:+ word +:+ ws +:+ ":" +:+ rest /\
                  (before = EmptyString \/
                   exists pre c, before = pre +:+ String c EmptyString /\
                                 JS.isLineTerminator c = true) /\
                  JS.equalI "contact" word = true /\
                  allChars JS.isWhiteSpace ws = true).
      { rewrite hasContactLine_iff. split.
        - intros [[_ H]|(pre & c & post & -> & Hc & H)];
            apply contactHere_iff in H as (word & ws & rest & -> & Hw & Hws).
          + exists EmptyString, word, ws, rest. repeat split; try done. by left.
          + exists (pre +:+ String c EmptyString), word, ws, rest.
            repeat split; try done.
            * rewrite string_app_assoc. reflexivity.
            * right. by exists pre, c.
        - intros (before & word & ws & rest & -> & [->|(pre & c & -> & Hc)] & Hw & Hws).
          + left. split; [done|]. apply contactHere_iff. by exists word, ws, rest.
          + right. exists pre, c, (word +:+ ws +:+ ":" +:+ rest).
            split; [by rewrite string_app_assoc|]. split; [done|].
            apply contactHere_iff. by exists word, ws, rest. }
      destruct (JS.truthy s) eqn:Ht; cbn [negb].
      * destruct (hasContactLine true s) eqn:Hh.
        -- split; [|done]. intros _. exists s. split; [done|]. by apply Hiff.
        -- split; [discriminate|]. intros (s' & [= <-] & H).
           apply Hiff in H. discriminate.
      * split; [discriminate|]. intros (s' & [= <-] & H).
        destruct s; [|discriminate]. apply Hiff in H. discriminate.
    + split; [discriminate|]. intros (s & ? & _). discriminate.
  - unfold quickLintState. destruct t as [s|]; [|done].
    destruct (negb (JS.truthy s)); [done|].
    destruct (hasContactLine true s); done.
Qed.

(** ** The settings page and the worker *)

Lemma normalized_elem (x : string) (l : list string) :
  x ∈ List.filter JS.truthy (map normalizePath l) ->
  normalizePath x = x /\ JS.truthy x = true.
Proof.
  intros H. apply filter_truthy_elem in H as [H Ht].
  apply list_elem_of_fmap in H as (q & -> & _).
  split; [apply normalizePath_fixed | done].
Qed.

(** X11.  Adding an endpoint on the settings page: an empty or blank
    input changes nothing; otherwise the normalized input is among the
    extra endpoints that the worker's next [getSettings] returns, and it is
    there once if the endpoints had no repetition before.  When the list
    is stored, it is stored normalized with the new endpoint last. *)
Theorem addEndpoint_then_getSettings `{P : Platform} (input : string) (w : World) :
  exists w',
    addEndpoint input w = Some (tt, w') /\
    (normalizePath input = EmptyString -> w' = w) /\
    (normalizePath input <> EmptyString ->
     normalizePath input ∈ extraEndpoints (settingsOf w') /\
     (w' = w \/
      ((normalizePath input ∉ extraEndpoints (settingsOf w)) /\
       sync_extraEndpoints w' =
         Some (extraEndpoints (settingsOf w) ++ [normalizePath input]) /\
       extraEndpoints (settingsOf w') =
         extraEndpoints (settingsOf w) ++ [normalizePath input])) /\
     (NoDup (extraEndpoints (settingsOf w)) ->
      NoDup (extraEndpoints (settingsOf w')))).
Proof.
  unfold addEndpoint. cbv zeta.
  destruct (JS.truthy (normalizePath input)) eqn:Ht; cbn [negb].
  - unfold bind, get.
    change (List.filter JS.truthy (map normalizePath (storedExtra w)))
      with (extraEndpoints (settingsOf w)).
    case_bool_decide as Hin; cbn [negb].
    + exists w. split; [reflexivity|]. split; [done|]. intros _.
      split; [done|]. split; [by left | done].
    + eexists. split; [reflexivity|].
      split; [intros E; rewrite E in Ht; discriminate|]. intros _.
      assert (E : extraEndpoints
                    (settingsOf
                       (mkWorld _ (net w) (requests w)
                          (Some (extraEndpoints (settingsOf w) ++ [normalizePath input]))
                          (sync_tryHttpFallback w) (session w)
                          (badgeText w) (badgeColor w)))
                  = extraEndpoints (settingsOf w) ++ [normalizePath input]).
      { unfold settingsOf at 1. cbn [extraEndpoints sync_extraEndpoints].
        rewrite map_app, List.filter_app.
        destruct (normalized_list (storedExtra w)) as [_ E].
        change (List.filter JS.truthy (map normalizePath (storedExtra w)))
          with (extraEndpoints (settingsOf w)) in E.
        rewrite E. cbn [map List.filter].
        destruct (normalizePath_fixed input) as [-> _]. by rewrite Ht. }
      unfold setExtra, modify. rewrite E. split; [|split].
      * apply elem_of_app. right. by left.
      * right. done.
      * intros Hnd. apply NoDup_app. split; [done|]. split.
        -- intros x Hx Hx'. apply list_elem_of_singleton in Hx'. by subst.
        -- apply NoDup_singleton.
  - exists w. split; [reflexivity|]. split; [done|].
    intros Hne. destruct (normalizePath input); [done | discriminate].
Qed.

(** X12.  Removing a listed endpoint on the settings page, when the
    stored list is in normalized form (as [addEndpoint] stores it): the
    endpoint is no longer among the extra endpoints of the worker, and the
    others stay, in order. *)
Theorem removeEndpoint_then_getSettings `{P : Platform} (ep : string) (w : World) :
  Forall (fun x => normalizePath x = x /\ JS.truthy x = true) (storedExtra w) ->
  exists w',
    removeEndpoint ep w = Some (tt, w') /\
    (ep ∉ extraEndpoints (settingsOf w')) /\
    extraEndpoints (settingsOf w')
      = List.filter (fun x => negb (bool_decide (x = ep)))
          (extraEndpoints (settingsOf w)).
Proof.
  intros Hn. eexists. split; [reflexivity|].
  assert (Hid : forall l,
            Forall (fun x => normalizePath x = x /\ JS.truthy x = true) l ->
            List.filter JS.truthy (map normalizePath l) = l).
  { induction 1 as [|x l [Hx Ht] _ IH]; [reflexivity|].
    cbn [map List.filter]. by rewrite Hx, Ht, IH. }
  assert (Hkeep : Forall (fun x => normalizePath x = x /\ JS.truthy x = true)
                    (List.filter (fun x => negb (bool_decide (x = ep))) (storedExtra w))).
  { apply Forall_forall. intros x Hx. apply list_elem_of_In, filter_In in Hx as [Hx _].
    rewrite Forall_forall in Hn. apply Hn. by apply list_elem_of_In. }
  assert (E : extraEndpoints (settingsOf w) = storedExtra w) by (by apply Hid).
  unfold settingsOf at 1 2. cbn [extraEndpoints sync_extraEndpoints].
  rewrite (Hid _ Hkeep), E. split; [|reflexivity].
  intros Hin. apply list_elem_of_In, filter_In in Hin as [_ Hin].
  by rewrite bool_decide_eq_true_2 in Hin.
Qed.

(** X12, witness: two stored endpoints, the first removed. *)
Lemma removeEndpoint_then_getSettings_witness :
  exists w',
    removeEndpoint (P := Reference.platform) "/a/security.txt"
      (mkWorld Reference.platform 0 [] (Some ["/a/security.txt"; "/b"]) false ∅ ∅ ∅)
      = Some (tt, w') /\
    extraEndpoints (settingsOf w') = ["/b"].
Proof.
  assert (Hn : Forall (fun x => normalizePath x = x /\ JS.truthy x = true)
                 (storedExtra (P := Reference.platform)
                    (mkWorld Reference.platform 0 []
                       (Some ["/a/security.txt"; "/b"]) false ∅ ∅ ∅))).
  { repeat constructor. }
  destruct (removeEndpoint_then_getSettings (P := Reference.platform)
              "/a/security.txt" _ Hn) as (w' & Hrun & _ & E).
  exists w'. split; [exact Hrun|]. rewrite E. reflexivity.
Defined.

(** ** The entries of the parsed field map *)

Lemma foldl_entryPush_Some (e : FieldEntry) (occ : list (string * string)) :
  foldl entryPush (Some e) occ = Some (mkField (name e) (values e ++ occ.*2)).
Proof.
  revert e. induction occ as [|o occ IH]; intros e; cbn [foldl fmap list_fmap].
  - rewrite app_nil_r. by destruct e.
  - cbn [entryPush]. rewrite IH. cbn [name values]. by rewrite <- app_assoc.
Qed.

Lemma foldl_entryPush_None (occ : list (string * string)) :
  foldl entryPush None occ =
  match occ with
  | [] => None
  | o :: _ => Some (mkField o.1 occ.*2)
  end.
Proof.
  destruct occ as [|o occ]; [reflexivity|].
  cbn [foldl entryPush]. by rewrite foldl_entryPush_Some.
Qed.

(** The loop invariant for a key other than the reserved one: its entry
    grows by the field lines of that key, one push each. *)
Lemma parseLines_entry (k : string) lines (f f' : gmap string FieldEntry) :
  k <> "__unparsed" ->
  parseLines lines f = Some f' ->
  f' !! k = foldl entryPush (f !! k) (occurrences k lines).
Proof.
  intros Hk. revert f. induction lines as [|line0 lines IH]; intros f; simpl.
  - by intros [= ->].
  - destruct (parseLine f line0) as [f1|] eqn:E; [|discriminate].
    intros H. rewrite (IH _ H). clear IH H.
    rewrite parseLine_classify in E. unfold occurrences. cbn [omap list_omap].
    destruct (classify line0) as [| |nm v] eqn:C.
    + by injection E as <-.
    + pose proof (pushValue_spec "__unparsed" "__unparsed" line0 f) as S.
      rewrite E in S. destruct S as (_ & _ & S). by rewrite (S k Hk).
    + pose proof (pushValue_spec (JS.toLowerCase nm) nm v f) as S.
      rewrite E in S. destruct S as (_ & Sk & S).
      case_bool_decide as Hd.
      * subst k. cbn [foldl]. rewrite Sk. f_equal.
        by destruct (f !! JS.toLowerCase nm).
      * by rewrite (S k) by congruence.
Qed.

(** X13.  When [parseSecurityTxt] returns a field map, the entry of every
    key other than the reserved one is determined by the field lines whose
    lower-cased name is the key: there is an entry exactly when there is
    such a line, its name is the name as the first of these lines writes
    it, and its values are the values of these lines in source order. *)
Theorem parseSecurityTxt_entries (text : string) (fields : gmap string FieldEntry)
    (k : string) :
  parseSecurityTxt text = Some fields ->
  k <> "__unparsed" ->
  fields !! k =
    match occurrences k (JS.splitLines text) with
    | [] => None
    | o :: _ => Some (mkField o.1 (occurrences k (JS.splitLines text)).*2)
    end.
Proof.
  unfold parseSecurityTxt. intros H Hk.
  rewrite (parseLines_entry k _ _ _ Hk H), lookup_empty.
  apply foldl_entryPush_None.
Qed.

(** X13, witness: the two Contact lines of [mixedText], written in two
    letter cases. *)
Lemma parseSecurityTxt_entries_witness :
  parseSecurityTxt mixedText = Some mixedFields /\
  occurrences "contact" (JS.splitLines mixedText) =
    [("Contact", "mailto:a@example.com"); ("CONTACT", "https://example.com/report")] /\
  mixedFields !! "contact" =
    Some (mkField "Contact" ["mailto:a@example.com"; "https://example.com/report"]).
Proof.
  assert (H : parseSecurityTxt mixedText = Some mixedFields)
    by (vm_compute; reflexivity).
  assert (Ho : occurrences "contact" (JS.splitLines mixedText) =
               [("Contact", "mailto:a@example.com");
                ("CONTACT", "https://example.com/report")])
    by (vm_compute; reflexivity).
  assert (Hk : "contact" <> "__unparsed") by discriminate.
  split; [exact H|]. split; [exact Ho|].
  rewrite (parseSecurityTxt_entries _ _ "contact" H Hk), Ho. reflexivity.
Defined.

(** ** Verdicts of the lint engine *)

Lemma some_bad_iff {A} (f : A -> bool) (l : list A) :
  (0 <? length (List.filter (fun x => negb (f x)) l))%nat = negb (forallb f l).
Proof.
  induction l as [|x l IH]; [reflexivity|]. cbn [List.filter forallb].
  destruct (f x); cbn [negb andb]; [exact IH | reflexivity].
Qed.

Lemma length_zero_iff {A} (l : list A) : (length l =? 0)%nat = true <-> l = [].
Proof. destruct l; cbn; split; congruence. Qed.

(** One rule of [lint] that can only warn, as the equation [c] between
    the rule and the pair it hands on: it leaves the fail test as it is. *)
Ltac rule_warns c :=
  revert c; repeat case_match; intros [= <- <-];
  rewrite ?existsb_app; cbn [existsb level bool_decide decide_rel];
  rewrite ?orb_false_r; reflexivity.

(** X14.  The verdict of [lint] is fail exactly when there is no Contact
    value or the first Expires value is a date strictly before the current
    instant; the Policy, Preferred-Languages and unparsed-lines rules never
    make a report fail. *)
Theorem lint_verdict_fail_iff `{P : Platform} (now : Z) (fields : gmap string FieldEntry) :
  verdict (lint now fields) = VerdictFail <->
  valuesOf fields "contact" = [] \/ expiredAt now fields = true.
Proof.
  unfold lint.
  next_rule c1 l1 z1.
  assert (F1 : hasFail l1 = (length (valuesOf fields "contact") =? 0)%nat).
  { revert c1. repeat case_match; intros [= <- <-]; reflexivity. }
  next_rule c2 l2 z2.
  assert (F2 : hasFail l2 = hasFail l1 || expiredAt now fields).
  { unfold expiredAt. revert c2. repeat case_match; intros [= <- <-];
      rewrite ?existsb_app; cbn [existsb level bool_decide decide_rel];
      rewrite ?orb_false_r; reflexivity. }
  next_rule c3 l3 z3.
  assert (F3 : hasFail l3 = hasFail l2) by rule_warns c3.
  next_rule c4 l4 z4.
  assert (F4 : hasFail l4 = hasFail l3) by rule_warns c4.
  next_rule c5 l5 z5.
  assert (F5 : hasFail l5 = hasFail l4) by rule_warns c5.
  cbn [verdict]. rewrite F5, F4, F3, F2, F1.
  rewrite <- length_zero_iff, <- orb_true_iff.
  destruct ((length (valuesOf fields "contact") =? 0)%nat || expiredAt now fields).
  - done.
  - split; [|discriminate]. intros H. by case_match.
Qed.

Lemma no_level_nil (l : list Issue) :
  hasFail l = false ->
  existsb (fun i => bool_decide (level i = LevelWarn)) l = false ->
  l = [].
Proof.
  destruct l as [|[[] m] l]; [done | |]; cbn; discriminate.
Qed.

(** One rule of [lint], as the equation [c] between the rule and the pair
    it hands on: it adds no issue exactly when its condition holds, and
    then it leaves the score as it is. *)
Ltac rule_clean c :=
  revert c;
  repeat match goal with
         | |- context [negb (forallb ?f ?l)] => destruct (forallb f l)
         end;
  cbn [negb]; repeat case_match; intros [= <- <-]; cbn [negb andb app];
  repeat split; intros;
  repeat match goal with
         | H : _ /\ _ |- _ => destruct H
         | H : _ ++ [_] = [] |- _ => by apply app_eq_nil in H as [_ ?]
         end;
  subst; try done; try lia.

(** X15.  A report has no issue exactly under the conditions of
    [healthy]: some Contact value and every Contact value a mailto or
    http(s) URL, a first Expires value that is a date not before the
    current instant, some Policy value and every one a mailto or http(s)
    URL, only well-formed language tags, and no unparsed line.  Then, and
    only then, the verdict is ok, and the score is 100 whatever the
    bonus. *)
Theorem lint_healthy_iff `{P : Platform} (now : Z) (fields : gmap string FieldEntry) :
  (issues (lint now fields) = [] <-> healthy now fields = true) /\
  (verdict (lint now fields) = VerdictOk <-> healthy now fields = true) /\
  (healthy now fields = true -> score (lint now fields) = 100).
Proof.
  assert (H : (issues (lint now fields) = [] <-> healthy now fields = true) /\
              (issues (lint now fields) = [] -> score (lint now fields) = 100) /\
              (verdict (lint now fields) = VerdictOk <-> issues (lint now fields) = [])).
  { unfold lint, healthy. rewrite !some_bad_iff.
    change (List.filter JS.truthy
              (map JS.trim
                 (flat_map (JS.split ",") (valuesOf fields "preferred-languages"))))
      with (languageTags (valuesOf fields "preferred-languages")).
    next_rule c1 l1 z1.
    assert (G1 : (l1 = [] <->
                  negb (length (valuesOf fields "contact") =? 0)%nat &&
                  forallb looksLikeUrlOrMailto (valuesOf fields "contact") = true) /\
                 (l1 = [] -> z1 = 100)) by rule_clean c1.
    next_rule c2 l2 z2.
    assert (G2 : (l2 = [] <->
                  l1 = [] /\
                  match valuesOf fields "expires" with
                  | [] => false
                  | e0 :: _ =>
                      match parseRfc3339Date e0 with
                      | Some d => negb (d <? now)
                      | None => false
                      end
                  end = true) /\
                 (l2 = [] -> z2 = z1)) by rule_clean c2.
    next_rule c3 l3 z3.
    assert (G3 : (l3 = [] <->
                  l2 = [] /\
                  negb (length (valuesOf fields "policy") =? 0)%nat &&
                  forallb looksLikeUrlOrMailto (valuesOf fields "policy") = true) /\
                 (l3 = [] -> z3 = z2)) by rule_clean c3.
    next_rule c4 l4 z4.
    assert (G4 : (l4 = [] <->
                  l3 = [] /\
                  forallb langTagOk
                    (languageTags (valuesOf fields "preferred-languages")) = true) /\
                 (l4 = [] -> z4 = z3)).
    { destruct (valuesOf fields "preferred-languages") as [|p pl].
      - cbn in c4. injection c4 as <- <-. cbn. tauto.
      - cbn [length Nat.ltb Nat.leb] in c4. rule_clean c4. }
    next_rule c5 l5 z5.
    assert (G5 : (l5 = [] <->
                  l4 = [] /\
                  negb (0 <? length (valuesOf fields "__unparsed"))%nat = true) /\
                 (l5 = [] -> z4 <= z5 <= z4 + 6)) by rule_clean c5.
    cbn [issues score verdict].
    destruct G1 as [G1 S1], G2 as [G2 S2], G3 as [G3 S3], G4 as [G4 S4],
             G5 as [G5 S5].
    split; [|split].
    - rewrite !andb_true_iff, G5, G4, G3, G2, G1, !andb_true_iff. tauto.
    - intros E5. pose proof E5 as E4. apply G5 in E4 as [E4 _].
      pose proof E4 as E3. apply G4 in E3 as [E3 _].
      pose proof E3 as E2. apply G3 in E2 as [E2 _].
      pose proof E2 as E1. apply G2 in E1 as [E1 _].
      specialize (S1 E1). specialize (S2 E2). specialize (S3 E3).
      specialize (S4 E4). specialize (S5 E5). lia.
    - split.
      + intros Hv. apply no_level_nil.
        * destruct (hasFail l5); [discriminate | reflexivity].
        * destruct (hasFail l5); [discriminate|].
          destruct (existsb _ l5); [discriminate | reflexivity].
      + by intros ->. }
  destruct H as (H1 & H2 & H3).
  split; [exact H1|]. split; [by rewrite H3|].
  intros Hh. apply H2. by apply H1.
Qed.

(** ** Quick actions *)

Lemma looksLikeUrlOrMailto_tests `{P : Platform} (v : string) :
  looksLikeUrlOrMailto v =
  if negb (JS.truthy (JS.trim v)) then false
  else if JS.prefixI "mailto:" (JS.trim v) then true
  else httpOrHttps (JS.trim v).
Proof. reflexivity. Qed.

Lemma filter_cons_shorter {A} (f : A -> bool) (x : A) (l : list A) :
  List.filter f l <> x :: l.
Proof.
  intros E. pose proof (filter_length f l) as Hl.
  rewrite E in Hl. simpl in Hl. lia.
Qed.

(** X16.  The Contact quick action opens the first Contact value that
    the lint test [looksLikeUrlOrMailto] accepts, trimmed; there is none
    exactly when lint counts every Contact value as bad. *)
Theorem pickBestContact_first `{P : Platform} (fields : gmap string FieldEntry) :
  pickBestContact fields =
    JS.trim <$> head (List.filter looksLikeUrlOrMailto (valuesOf fields "contact")) /\
  (pickBestContact fields = None <->
   List.filter (fun c => negb (looksLikeUrlOrMailto c)) (valuesOf fields "contact")
     = valuesOf fields "contact").
Proof.
  unfold pickBestContact. induction (valuesOf fields "contact") as [|v l [IH1 IH2]].
  - split; [reflexivity | done].
  - cbn [firstContact List.filter]. rewrite !(looksLikeUrlOrMailto_tests v).
    destruct (negb (JS.truthy (JS.trim v))); cbn [negb].
    + split; [exact IH1|]. rewrite IH2. split; [by intros -> | by intros [= ?]].
    + destruct (JS.prefixI "mailto:" (JS.trim v)); cbn [negb];
        [|destruct (httpOrHttps (JS.trim v)); cbn [negb]].
      * split; [reflexivity|]. split; [discriminate|].
        intros E. by apply filter_cons_shorter in E.
      * split; [reflexivity|]. split; [discriminate|].
        intros E. by apply filter_cons_shorter in E.
      * split; [exact IH1|]. rewrite IH2.
        split; [by intros -> | by intros [= ?]].
Qed.

(** X17.  The Policy quick action opens the first Policy value that,
    trimmed, is not empty and parses as an http(s) URL.  A value it opens
    is one that lint accepts, but not the other way round: lint also
    accepts a [mailto:] value, which this action passes over. *)
Theorem pickBestPolicy_first `{P : Platform} (fields : gmap string FieldEntry) :
  pickBestPolicy fields =
    JS.trim <$>
      head (List.filter (fun v => JS.truthy (JS.trim v) && httpOrHttps (JS.trim v))
              (valuesOf fields "policy")) /\
  (forall s, pickBestPolicy fields = Some s ->
     exists v, v ∈ valuesOf fields "policy" /\ s = JS.trim v /\
               looksLikeUrlOrMailto v = true /\ httpOrHttps s = true) /\
  (Forall (fun v => httpOrHttps (JS.trim v) = false) (valuesOf fields "policy") ->
   pickBestPolicy fields = None).
Proof.
  unfold pickBestPolicy. induction (valuesOf fields "policy") as [|v l (IH1 & IH2 & IH3)].
  - split; [reflexivity|]. split; [discriminate | reflexivity].
  - cbn [firstPolicy List.filter].
    destruct (JS.truthy (JS.trim v)) eqn:Ht; cbn [negb andb].
    + destruct (httpOrHttps (JS.trim v)) eqn:Hh.
      * split; [reflexivity|]. split.
        -- intros s [= <-]. exists v. split; [by left|]. split; [done|].
           split; [|done]. unfold looksLikeUrlOrMailto. rewrite Ht. cbn [negb].
           destruct (JS.prefixI "mailto:" (JS.trim v)); [done|]. exact Hh.
        -- intros H. apply Forall_cons in H as [H _]. congruence.
      * split; [exact IH1|]. split.
        -- intros s Hs. destruct (IH2 s Hs) as (v' & Hin & ?).
           exists v'. split; [by right | done].
        -- intros H. apply Forall_cons in H as [_ H]. by apply IH3.
    + split; [exact IH1|]. split.
      * intros s Hs. destruct (IH2 s Hs) as (v' & Hin & ?).
        exists v'. split; [by right | done].
      * intros H. apply Forall_cons in H as [_ H]. by apply IH3.
Qed.

(** ** HTML escaping and sets *)

Lemma replaceAll_app (c : ascii) (r a b : string) :
  replaceAll c r (a +:+ b) = replaceAll c r a +:+ replaceAll c r b.
Proof.
  induction a as [|d a IH]; [reflexivity|].
  rewrite string_app_cons. cbn [replaceAll].
  destruct (bool_decide (d = c)).
  - by rewrite IH, string_app_assoc.
  - by rewrite IH.
Qed.

Lemma escapeHtml_app (a b : string) :
  escapeHtml (a +:+ b) = escapeHtml a +:+ escapeHtml b.
Proof. unfold escapeHtml. by rewrite !replaceAll_app. Qed.

Lemma escapeHtml_char (c : ascii) :
  escapeHtml (String c EmptyString) = escapeChar c.
Proof.
  unfold escapeChar.
  repeat case_bool_decide; subst; try reflexivity.
  unfold escapeHtml. cbn [replaceAll].
  repeat (rewrite bool_decide_eq_false_2 by done; cbn [replaceAll]).
  reflexivity.
Qed.

Lemma occurs_app (c : ascii) (a b : string) :
  occurs c (a +:+ b) = occurs c a || occurs c b.
Proof.
  induction a as [|d a IH]; [reflexivity|].
  rewrite string_app_cons. cbn [occurs]. rewrite IH. by rewrite orb_assoc.
Qed.

Lemma escapeChar_clean (c : ascii) :
  occurs "<" (escapeChar c) = false /\ occurs ">" (escapeChar c) = false /\
  occurs "034" (escapeChar c) = false /\ occurs "'" (escapeChar c) = false.
Proof.
  unfold escapeChar. repeat case_bool_decide; subst; try (by vm_compute).
  cbn [occurs]. rewrite !bool_decide_eq_false_2 by done. done.
Qed.

(** X18.  The five replacements of [escapeHtml], made one after the
    other, amount to escaping every character once ([&] first, so that
    the ampersands of the entities are not escaped again); the result has
    no [<], [>], double quote or single quote left; and a string without
    the five characters is returned as it is. *)
Theorem escapeHtml_each (s : string) :
  escapeHtml s = escapeEach s /\
  (occurs "<" (escapeHtml s) = false /\ occurs ">" (escapeHtml s) = false /\
   occurs "034" (escapeHtml s) = false /\ occurs "'" (escapeHtml s) = false) /\
  (occurs "&" s = false -> occurs "<" s = false -> occurs ">" s = false ->
   occurs "034" s = false -> occurs "'" s = false -> escapeHtml s = s).
Proof.
  assert (E : escapeHtml s = escapeEach s).
  { induction s as [|c s IH]; [reflexivity|].
    change (String c s) with (String c EmptyString +:+ s).
    rewrite escapeHtml_app, escapeHtml_char, IH. reflexivity. }
  split; [exact E|]. rewrite E. clear E. split.
  - induction s as [|c s (I1 & I2 & I3 & I4)]; [done|].
    cbn [escapeEach]. rewrite !occurs_app, I1, I2, I3, I4.
    destruct (escapeChar_clean c) as (-> & -> & -> & ->). done.
  - induction s as [|c s IH]; [done|]. cbn [occurs escapeEach].
    intros H1 H2 H3 H4 H5.
    apply orb_false_iff in H1 as [C1 H1], H2 as [C2 H2], H3 as [C3 H3],
      H4 as [C4 H4], H5 as [C5 H5].
    rewrite IH by done. unfold escapeChar. by rewrite C1, C2, C3, C4, C5.
Qed.

Lemma filter_other_id (y : string) (l : list string) :
  y ∉ l -> filter (fun x => x <> y) l = l.
Proof.
  induction l as [|z l IH]; [reflexivity|]. intros H.
  apply not_elem_of_cons in H as [Hz Hl].
  rewrite filter_cons_True by congruence. by rewrite IH.
Qed.

(** X19.  [uniq] (the spread of a [Set]) keeps exactly the elements of the
    list, each once, and returns a list without repetitions as it is. *)
Theorem uniq_set (l : list string) :
  NoDup (JS.uniq l) /\
  (forall x, x ∈ JS.uniq l <-> x ∈ l) /\
  (NoDup l -> JS.uniq l = l).
Proof.
  assert (Hin : forall l x, x ∈ JS.uniq l <-> x ∈ l).
  { clear l. induction l as [|y l IH]; intros x; [done|].
    cbn [JS.uniq]. rewrite !elem_of_cons, list_elem_of_filter, IH.
    destruct (decide (x = y)) as [->|Hne]; [split; by left|].
    split; [intros [?|[_ ?]]; [by left | by right]|].
    intros [?|?]; [by left | by right]. }
  split; [|split; [apply Hin|]].
  - induction l as [|y l IH]; [constructor|].
    cbn [JS.uniq]. constructor.
    + rewrite list_elem_of_filter. intros [Hy _]. by apply Hy.
    + by apply NoDup_filter.
  - induction 1 as [|y l Hy Hnd IH]; [reflexivity|].
    cbn [JS.uniq]. rewrite IH. f_equal. by apply filter_other_id.
Qed.

(** ** Request volume of a probe cycle *)

Lemma uniq_length (l : list string) : (length (JS.uniq l) <= length l)%nat.
Proof.
  induction l as [|x l IH]; [done|]. cbn [JS.uniq length].
  pose proof (length_filter (fun y => y <> x) (JS.uniq l)). lia.
Qed.

Lemma expandCaseVariants_length (ep : string) :
  (length (expandCaseVariantsForEndpoint ep) <= 4)%nat.
Proof.
  unfold expandCaseVariantsForEndpoint.
  destruct (negb (JS.equalI "/security.txt" (JS.takeLast 13 ep))); [cbn; lia|].
  etransitivity; [apply uniq_length|]. cbn. lia.
Qed.

Lemma flat_map_length_le {A B} (f : A -> list B) (n : nat) (l : list A) :
  (forall x, length (f x) <= n)%nat ->
  (length (flat_map f l) <= n * length l)%nat.
Proof.
  intros H. induction l as [|x l IH]; cbn [flat_map length]; [lia|].
  rewrite length_app. specialize (H x). lia.
Qed.

Lemma buildCandidateUrlsForHost_length
    (host : string) (endpoints : list string) (tryHttp : bool) :
  (length (buildCandidateUrlsForHost host endpoints tryHttp)
   <= (if tryHttp then 8 else 4) * length endpoints)%nat.
Proof.
  unfold buildCandidateUrlsForHost.
  set (paths := List.filter JS.truthy
                  (map normalizePath (flat_map expandCaseVariantsForEndpoint endpoints))).
  assert (Hp : (length paths <= 4 * length endpoints)%nat).
  { subst paths.
    pose proof (filter_length JS.truthy
                  (map normalizePath (flat_map expandCaseVariantsForEndpoint endpoints))) as H1.
    rewrite length_map in H1.
    pose proof (flat_map_length_le expandCaseVariantsForEndpoint 4 endpoints
                  expandCaseVariants_length).
    lia. }
  destruct tryHttp; cbn [negb]; rewrite ?length_app, !length_map; lia.
Qed.

(** X20.  A probe cycle sends a bounded number of requests: at most four
    spellings of every endpoint, over HTTPS and, with the fallback
    setting, over HTTP, for at most two hosts; and the endpoints are at
    most the two defaults and the stored extra endpoints. *)
Theorem probeSecurityTxt_request_bound `{P : Platform}
    (tabUrl : string) (w w' : World) (r : ProbeResult) :
  probeSecurityTxt tabUrl w = Some (r, w') ->
  (length (requests w') - length (requests w) = length (attempts r))%nat /\
  (length (attempts r)
   <= 2 * (if sync_tryHttpFallback w then 8 else 4)
        * length (endpointsOf (settingsOf w)))%nat /\
  (length (endpointsOf (settingsOf w)) <= 2 + length (storedExtra w))%nat.
Proof.
  intros Hrun.
  assert (Hu : exists u, URL_new tabUrl = Some u).
  { revert Hrun. unfold probeSecurityTxt, getSettings, newURL, bind, get, ret, throw.
    destruct (URL_new tabUrl); [by eauto | discriminate]. }
  destruct Hu as [u Hu].
  destruct (probeSecurityTxt_run tabUrl u w Hu) as (r' & w2 & Hrun' & Hreq & Hcases).
  rewrite Hrun in Hrun'. injection Hrun' as <- <-.
  split; [rewrite Hreq, length_app, length_map; lia|].
  assert (Hc : (length (candidateUrls (settingsOf w) (hostname u))
                <= 2 * (if sync_tryHttpFallback w then 8 else 4)
                     * length (endpointsOf (settingsOf w)))%nat).
  { unfold candidateUrls.
    pose proof (flat_map_length_le
                  (fun h => buildCandidateUrlsForHost h (endpointsOf (settingsOf w))
                              (tryHttpFallback (settingsOf w)))
                  ((if sync_tryHttpFallback w then 8 else 4)
                   * length (endpointsOf (settingsOf w)))
                  (hostsToTry (hostname u))
                  (fun h => buildCandidateUrlsForHost_length h _ _)) as H.
    assert (Hh : (length (hostsToTry (hostname u)) <= 2)%nat).
    { unfold hostsToTry. case_bool_decide; cbn; lia. }
    nia. }
  split.
  - destruct Hcases as [(_ & _ & Hpf)|(_ & He & _)].
    + apply prefix_length in Hpf. rewrite length_map in Hpf. lia.
    + rewrite <- He, length_map in Hc. lia.
  - unfold endpointsOf, settingsOf. cbn [extraEndpoints].
    fold (storedExtra w).
    pose proof (filter_length JS.truthy
                  (map normalizePath
                     (DEFAULT_ENDPOINTS ++
                      List.filter JS.truthy (map normalizePath (storedExtra w))))) as H1.
    rewrite length_map, length_app in H1.
    pose proof (filter_length JS.truthy (map normalizePath (storedExtra w))) as H2.
    rewrite length_map in H2. cbn [DEFAULT_ENDPOINTS length] in H1. lia.
Qed.

(** X20, witness: the scenario of the reference platform, nine requests. *)
Lemma probeSecurityTxt_request_bound_witness :
  probeSecurityTxt (P := Reference.platform)
    "https://www.example.co.uk/index.html" Reference.world0
    = Some (scenarioResult, scenarioWorld) /\
  length (attempts scenarioResult) = 9%nat /\
  (length (attempts scenarioResult) <= 2 * 4 * 2)%nat.
Proof.
  assert (E : probeSecurityTxt (P := Reference.platform)
                "https://www.example.co.uk/index.html" Reference.world0
              = Some (scenarioResult, scenarioWorld))
    by reflexivity.
  split; [exact E|]. split; [reflexivity|].
  exact (proj1 (proj2 (probeSecurityTxt_request_bound (P := Reference.platform)
                         _ _ _ _ E))).
Defined.

(** ** Field names that make the parser throw *)

Lemma lowerChar_nameChar (c : ascii) :
  isNameChar c = true -> lowerNameChar (JS.lowerChar c) = true.
Proof.
  destruct c as [[] [] [] [] [] [] [] []]; vm_compute; intros H;
    first [reflexivity | discriminate].
Qed.

Lemma toLowerCase_fieldName (nm : string) :
  isFieldName nm = true -> allChars lowerNameChar (JS.toLowerCase nm) = true.
Proof.
  induction nm as [|c nm IH]; [discriminate|].
  cbn [isFieldName JS.toLowerCase allChars]. destruct nm as [|d nm].
  - intros H. by rewrite (lowerChar_nameChar c H).
  - intros H. apply andb_true_iff in H as [Hc H].
    by rewrite (lowerChar_nameChar c Hc), (IH H).
Qed.

(** Of the property names of [Object.prototype], only [constructor] is
    the lower-cased form of a field name: the others have a capital
    letter or an underscore. *)
Lemma fieldName_prototype_key (nm : string) :
  isFieldName nm = true ->
  JS.toLowerCase nm ∈ OBJECT_PROTOTYPE_KEYS <-> JS.toLowerCase nm = "constructor".
Proof.
  intros H. apply toLowerCase_fieldName in H.
  unfold OBJECT_PROTOTYPE_KEYS. rewrite !elem_of_cons. split.
  - intros Hin.
    repeat (destruct Hin as [E|Hin];
            [first [exact E | rewrite E in H; vm_compute in H; discriminate]|]).
    by apply elem_of_nil in Hin.
  - intros ->. by left.
Qed.

(** X21.  [parseSecurityTxt] throws exactly when some line of the text is
    a field line whose name is [constructor] in any letter case (the field
    map is a plain object, and the name finds the constructor of
    [Object.prototype]); every other text is parsed. *)
Theorem parseSecurityTxt_throws_constructor (text : string) :
  parseSecurityTxt text = None <->
  exists line0 nm value,
    line0 ∈ JS.splitLines text /\ classify line0 = FieldLine nm value /\
    JS.toLowerCase nm = "constructor".
Proof.
  rewrite parseSecurityTxt_throws. split.
  - intros (line0 & nm & v & Hin & Hc & Hk). exists line0, nm, v.
    split; [done|]. split; [done|].
    apply fieldName_prototype_key; [|done]. by apply classify_field in Hc as [? _].
  - intros (line0 & nm & v & Hin & Hc & Hk). exists line0, nm, v.
    split; [done|]. split; [done|].
    apply fieldName_prototype_key; [|done]. by apply classify_field in Hc as [? _].
Qed.
